(** * StellarNova limit-order engine: executor, price math, order wire format

    A shallow embedding of the TypeScript sources of the limit-order
    executor (backend/src/services/limitOrderExecutor.ts), of the backend
    entry point and configuration (backend/src/index.ts, config.ts) and of
    the frontend helpers (frontend/src/lib/stellarnova/limitOrders.ts),
    together with the properties the specification states about them.

    Conventions of the embedding.
    - A JavaScript [number] that holds a price, a reserve or a product of
      them is an IEEE 754 binary64 value ([Double.double], the standard
      library's specification of floating-point numbers at precision 53):
      every operation rounds to nearest, ties to even, and NaN, the two
      infinities and the two zeros are values like any other.
      [Math.pow(10, n)] for an integer [n] is taken to be the correctly
      rounded power of ten.
    - A [number] that the code only ever uses as an integer (an order id,
      a time in seconds or milliseconds, a count of decimals) is a [Z].
    - A [bigint] is a [Z]; its conversion to a [number] rounds above 2^53
      ([JsNum.of_bigint]).
    - A Node [Buffer] is a [list byte]; a string decoded from a buffer is
      the [string] with the same bytes (token identifiers are ASCII).
    - [Map<number, number>] is a [gmap Z Z].
    - Network calls are answered by an explicit record of replies that the
      function under study receives as an argument; a rejected promise or a
      thrown exception is a [Throw]. *)

From Stdlib Require Import ZArith QArith Qround List Lia.
From Stdlib Require Import SpecFloat.
From Stdlib.Strings Require Import String Ascii Byte.
From stdpp Require Import base gmap strings.
Import ListNotations.
Open Scope Z_scope.

(** ** Results of code that may throw *)

Inductive JsError : Type :=
| RangeError
| SyntaxError
| TypeError
| NetworkError
| Error (msg : string).

Inductive result (A : Type) : Type :=
| Ok (a : A)
| Throw (e : JsError).
Arguments Ok {A} a.
Arguments Throw {A} e.

Definition is_ok {A} (r : result A) : bool :=
  match r with Ok _ => true | Throw _ => false end.

(** ** JavaScript numbers *)

Module JsNum.

(** [Number(n)] of a bigint and [parseInt] of an integer literal: the
    nearest double, ties to even.  Exact below 2^53; above, the value is
    rounded to 53 significant bits. *)
Definition of_bigint (n : Z) : Z :=
  if n <? 2 ^ 53 then n
  else
    let shift := Z.log2 n - 52 in
    let q := Z.shiftr n shift in
    let r := n - Z.shiftl q shift in
    let half := 2 ^ (shift - 1) in
    let q' := if (half <? r) || ((r =? half) && Z.odd q)
              then q + 1 else q in
    Z.shiftl q' shift.

End JsNum.

(** ** Double-precision numbers *)

Module Double.

Definition prec : Z := 53.
Definition emax : Z := 1024.

(** A [number]: binary64.  A finite non-zero value is
    [S754_finite sign m e], that is (-1)^sign * m * 2^e with [m] of at
    most 53 bits. *)
Definition double : Type := spec_float.

Definition NaN : double := S754_nan.

(** The double nearest to the rational [n / d], ties to even; what the
    reading of a decimal literal and the conversion of an integer
    produce. *)
Definition of_ratio (n : Z) (d : positive) : double :=
  match n with
  | Z0 => S754_zero false
  | Zpos m =>
      SFdiv prec emax (S754_finite false m 0) (S754_finite false d 0)
  | Zneg m =>
      SFdiv prec emax (S754_finite true m 0) (S754_finite false d 0)
  end.

(** The double nearest to an integer: [parseFloat] of the decimal string
    of a bigint, and a numeric literal such as [1]. *)
Definition of_Z (n : Z) : double := of_ratio n 1.

(** [x * y], [x / y] and [x <= y]. *)
Definition mul (x y : double) : double := SFmul prec emax x y.
Definition div (x y : double) : double := SFdiv prec emax x y.
Definition leb (x y : double) : bool := SFleb x y.

(** Truthiness: [!x] holds for +0, -0 and NaN. *)
Definition truthy (x : double) : bool :=
  match x with
  | S754_zero _ => false
  | S754_nan => false
  | _ => true
  end.

(** [Math.pow(10, e)] for an integer [e]. *)
Definition pow10 (e : Z) : double :=
  if 0 <=? e then of_ratio (10 ^ e) 1
  else of_ratio 1 (Z.to_pos (10 ^ (- e))).

(** [Math.floor(x)] of a finite [x]: an integer, given by its value.
    [None] stands for NaN and the infinities, which [Math.floor] returns
    unchanged and [BigInt] refuses with a RangeError. *)
Definition floor (x : double) : option Z :=
  match x with
  | S754_zero _ => Some 0
  | S754_finite s m e => Some (Z.shiftl (cond_Zopp s (Zpos m)) e)
  | S754_infinity _ => None
  | S754_nan => None
  end.

(** The real number that a finite double holds. *)
Definition to_Q (x : double) : Q :=
  match x with
  | S754_finite s m e => inject_Z (cond_Zopp s (Zpos m)) * 2 ^ e
  | _ => 0
  end.

(** *** [parseFloat] *)

Definition is_space (c : ascii) : bool :=
  let n := N_of_ascii c in
  ((9 <=? n) && (n <=? 13))%N || (n =? 32)%N.

Fixpoint trimStart (s : string) : string :=
  match s with
  | String c rest => if is_space c then trimStart rest else s
  | EmptyString => s
  end.

(** The longest prefix of decimal digits, read after [value] and
    [count] digits: the value, the number of digits and the rest. *)
Fixpoint read_digits (s : string) (value count : Z) : Z * Z * string :=
  match s with
  | String c rest =>
      let n := Z.of_N (N_of_ascii c) in
      if (48 <=? n) && (n <=? 57)
      then read_digits rest (value * 10 + (n - 48)) (count + 1)
      else (value, count, s)
  | EmptyString => (value, count, s)
  end.

(** The exponent part [e], [e+] or [e-] followed by at least one digit;
    0 when there is none. *)
Definition read_exponent (s : string) : Z :=
  let unsigned (t : string) : option Z :=
    let '(value, count, _) := read_digits t 0 0 in
    if count =? 0 then None else Some value in
  let signed (t : string) : option Z :=
    match t with
    | String "-" rest => option_map Z.opp (unsigned rest)
    | String "+" rest => unsigned rest
    | _ => unsigned t
    end in
  match s with
  | String "e" rest => match signed rest with Some x => x | None => 0 end
  | String "E" rest => match signed rest with Some x => x | None => 0 end
  | _ => 0
  end.

(** The double nearest to (-1)^negative * mantissa * 10^exponent. *)
Definition of_decimal (negative : bool) (mantissa exponent : Z) : double :=
  if mantissa =? 0 then S754_zero negative
  else
    let m := if negative then - mantissa else mantissa in
    if 0 <=? exponent then of_ratio (m * 10 ^ exponent) 1
    else of_ratio m (Z.to_pos (10 ^ (- exponent))).

(** [parseFloat(s)]: leading white space is skipped, then the longest
    prefix that is a decimal literal (sign, digits, fraction, exponent)
    or [Infinity] is read; NaN when there is none. *)
Definition parseFloat (s : string) : double :=
  let t := trimStart s in
  let '(negative, t1) :=
    match t with
    | String "-" rest => (true, rest)
    | String "+" rest => (false, rest)
    | _ => (false, t)
    end in
  if String.prefix "Infinity" t1 then S754_infinity negative
  else
    let '(whole, wholeDigits, t2) := read_digits t1 0 0 in
    let '(mantissa, fractionDigits, t3) :=
      match t2 with
      | String "." rest => read_digits rest whole 0
      | _ => (whole, 0, t2)
      end in
    if wholeDigits + fractionDigits =? 0 then NaN
    else of_decimal negative mantissa (read_exponent t3 - fractionDigits).

End Double.

(** ** Price math: price to (numerator, denominator) *)

Module PriceMath.

Definition MAX_SAFE_EXPONENT : Z := 15.

(** [Math.min(6, MAX_SAFE_EXPONENT - Math.abs(decimalAdjustment))],
    written identically in the executor and in the frontend. *)
Definition PRECISION (fromDecimals toDecimals : Z) : Z :=
  Z.min 6 (MAX_SAFE_EXPONENT - Z.abs (toDecimals - fromDecimals)).

(** The conversion at the head of [LimitOrderExecutor.executeOrder].
    [BigInt(10) ** BigInt(PRECISION)] throws a RangeError for a negative
    exponent; [BigInt(Math.floor(priceScaled))] throws one when
    [priceScaled] is NaN or infinite. *)
Definition executeOrder_fraction
    (currentPrice : Double.double) (fromTokenDecimals toTokenDecimals : Z)
    : result (Z * Z) :=
  let decimalAdjustment := toTokenDecimals - fromTokenDecimals in
  let PRECISION := Z.min 6 (MAX_SAFE_EXPONENT - Z.abs decimalAdjustment) in
  if PRECISION <? 0 then Throw RangeError
  else
    let denominator := 10 ^ PRECISION in
    let priceScaled :=
      Double.mul currentPrice
        (Double.pow10 (PRECISION + decimalAdjustment)) in
    match Double.floor priceScaled with
    | Some numerator => Ok (numerator, denominator)
    | None => Throw RangeError
    end.

(** [calculateTargetPriceWithDecimals] of the frontend: plain numbers,
    [Math.pow] for the denominator, no exception on any input.  The
    numerator is [Math.floor] of the scaled price. *)
Definition calculateTargetPriceWithDecimals
    (targetPrice : Double.double) (fromDecimals toDecimals : Z)
    : option Z * Double.double :=
  let decimalAdjustment := toDecimals - fromDecimals in
  let PRECISION := Z.min 6 (MAX_SAFE_EXPONENT - Z.abs decimalAdjustment) in
  let denominator := Double.pow10 PRECISION in
  let totalExponent := PRECISION + decimalAdjustment in
  let numerator :=
    Double.floor (Double.mul targetPrice (Double.pow10 totalExponent)) in
  (numerator, denominator).

End PriceMath.

(** ** Node buffers and the cursor-style readers of the decoders *)

Module Buf.

Definition Buffer : Type := list byte.

Definition byte_value (b : byte) : Z := Z.of_N (Byte.to_N b).

Definition byte_of_Z (z : Z) : byte :=
  match Byte.of_N (Z.to_N (z mod 256)) with
  | Some b => b
  | None => x00
  end.

(** Big-endian magnitude of a byte string. *)
Definition be_value (bs : list byte) : Z :=
  fold_left (fun acc b => acc * 256 + byte_value b) bs 0.

(** The [k] low-order bytes of [n], most significant first. *)
Fixpoint be_bytes (k : nat) (n : Z) : list byte :=
  match k with
  | O => []
  | S k' => be_bytes k' (n / 256) ++ [byte_of_Z (n mod 256)]
  end.

(** [buffer.slice(start, stop)] and [buffer.subarray(start, stop)]:
    the range is clamped to the buffer, nothing is thrown. *)
Definition slice (buffer : Buffer) (start stop : nat) : Buffer :=
  firstn (stop - start) (skipn start buffer).

(** [readUInt8], [readUInt16BE], [readUInt32BE], [readBigUInt64BE]:
    a read that does not fit in the buffer throws a RangeError. *)
Definition readUIntBE (width : nat) (buffer : Buffer) (offset : nat)
    : result Z :=
  if (offset + width <=? length buffer)%nat
  then Ok (be_value (slice buffer offset (offset + width)))
  else Throw RangeError.

(** A computation over a fixed buffer and a mutable [offset] that may
    throw: the shape of the [let offset = 0; ... offset += n] decoders. *)
Definition Reader (A : Type) : Type := Buffer -> nat -> result (A * nat).

Definition ret {A} (a : A) : Reader A := fun _ offset => Ok (a, offset).

Definition bind {A B} (m : Reader A) (k : A -> Reader B) : Reader B :=
  fun buffer offset =>
    match m buffer offset with
    | Ok (a, offset') => k a buffer offset'
    | Throw e => Throw e
    end.

Definition throw {A} (e : JsError) : Reader A := fun _ _ => Throw e.

#[global] Instance reader_ret : MRet Reader := @ret.
#[global] Instance reader_bind : MBind Reader :=
  fun A B k m => bind m k.

(** [buffer.readXxx(offset)] at the current offset. *)
Definition readAt (width : nat) : Reader Z :=
  fun buffer offset =>
    match readUIntBE width buffer offset with
    | Ok v => Ok (v, offset)
    | Throw e => Throw e
    end.

(** [buffer.slice(offset, offset + len)] at the current offset. *)
Definition sliceAt (len : nat) : Reader Buffer :=
  fun buffer offset => Ok (slice buffer offset (offset + len), offset).

(** [offset += n]. *)
Definition advance (n : nat) : Reader unit :=
  fun _ offset => Ok (tt, (offset + n)%nat).

Definition run {A} (m : Reader A) (buffer : Buffer) : result A :=
  match m buffer 0%nat with
  | Ok (a, _) => Ok a
  | Throw e => Throw e
  end.

(** A reader that looks at [field] without moving the offset. *)
Definition peeks {A} (m : Reader A) (field : Buffer) (v : A) : Prop :=
  forall pre rest,
    m (pre ++ field ++ rest) (length pre) = Ok (v, length pre).

(** A reader that consumes exactly [field] and yields [v]. *)
Definition decodes {A} (m : Reader A) (field : Buffer) (v : A) : Prop :=
  forall pre rest,
    m (pre ++ field ++ rest) (length pre) = Ok (v, length (pre ++ field)).

End Buf.

(** ** The order record of the executor (interface [LimitOrder]) *)

Record LimitOrder : Type := {
  order_id : Z;
  user : Buf.Buffer;                  (* hex string of the 32 address bytes *)
  from_token : string;
  from_amount : Z;                    (* decimal string of a bigint *)
  to_token : string;
  target_price_numerator : Z;         (* decimal string of a bigint *)
  target_price_denominator : Z;       (* decimal string of a bigint *)
  slippage_bp : Z;
  created_at : Z;
  expires_at : Z;
  status : Z                          (* 0=Pending, 1=Executed, 2=Cancelled, 3=Expired *)
}.

(** ** The contract side of the wire format *)

Module Contract.
Import Buf.

(** Modelled from the spec: "big-endian magnitude" of a big unsigned
    integer, taken minimal; this is its number of bytes (none for zero). *)
Definition byte_length (n : Z) : nat :=
  if n =? 0 then 0%nat else Z.to_nat (Z.log2 n / 8 + 1).

(** Modelled from the spec: a field of "8 bytes", big-endian. *)
Definition encode_u64 (v : Z) : Buffer := be_bytes 8 v.

(** Modelled from the spec: the status field, "1 byte". *)
Definition encode_u8 (v : Z) : Buffer := be_bytes 1 v.

(** Modelled from the spec: "4-byte length, then bytes". *)
Definition encode_bytes (bs : Buffer) : Buffer :=
  be_bytes 4 (Z.of_nat (length bs)) ++ bs.

(** Modelled from the spec: "4-byte length, then big-endian magnitude". *)
Definition encode_biguint (n : Z) : Buffer :=
  let k := byte_length n in
  be_bytes 4 (Z.of_nat k) ++ be_bytes k n.

(** Modelled from the spec: the contract's nested, big-endian
    serialisation of an Order (the contract's Rust source is not part of
    the repository snapshot; the field table of the specification, section
    6, and the [LimitOrder] struct quoted in ARCHITECTURE.md give the
    layout): order_id 8 bytes; owner 32 bytes, not length-prefixed;
    from_token, from_amount, to_token, target_num, target_denom each
    with a 4-byte length; slippage_bp 8 bytes; expires_at 8 bytes; status
    1 byte; created_at 8 bytes. *)
Definition encode_order (o : LimitOrder) : Buffer :=
  encode_u64 (order_id o) ++
  user o ++
  encode_bytes (list_byte_of_string (from_token o)) ++
  encode_biguint (from_amount o) ++
  encode_bytes (list_byte_of_string (to_token o)) ++
  encode_biguint (target_price_numerator o) ++
  encode_biguint (target_price_denominator o) ++
  encode_u64 (slippage_bp o) ++
  encode_u64 (expires_at o) ++
  encode_u8 (status o) ++
  encode_u64 (created_at o) ++
  [].

(** Well-formed orders: every field fits its slot of the layout, the
    slippage is at most 100%, the status is one of the four states, and
    the two unix times are below 2^53, the range in which the JavaScript
    side holds integers exactly. *)
Record well_formed (o : LimitOrder) : Prop := {
  wf_order_id : 0 <= order_id o < 2 ^ 64;
  wf_user : length (user o) = 32%nat;
  wf_from_token : Z.of_nat (String.length (from_token o)) < 2 ^ 32;
  wf_from_amount : 0 <= from_amount o;
  wf_from_amount_len : Z.of_nat (byte_length (from_amount o)) < 2 ^ 32;
  wf_to_token : Z.of_nat (String.length (to_token o)) < 2 ^ 32;
  wf_num : 0 <= target_price_numerator o;
  wf_num_len : Z.of_nat (byte_length (target_price_numerator o)) < 2 ^ 32;
  wf_denom : 0 < target_price_denominator o;
  wf_denom_len :
    Z.of_nat (byte_length (target_price_denominator o)) < 2 ^ 32;
  wf_slippage : 0 <= slippage_bp o <= 10000;
  wf_expires : 0 <= expires_at o < 2 ^ 53;
  wf_status : 0 <= status o <= 3;
  wf_created : 0 <= created_at o < 2 ^ 53
}.

End Contract.

(** ** The executor's decoder: the parsing part of [getLimitOrder] *)

Module ExecutorDecoder.
Import Buf.

(** [readU64]: a u64, 8 bytes, big-endian. *)
Definition readU64 : Reader Z :=
  value ← readAt 8;
  advance 8;;
  ret value.

(** [readLengthPrefixed]: 4-byte length, then data. *)
Definition readLengthPrefixed : Reader Buffer :=
  length ← readAt 4;
  advance 4;;
  data ← sliceAt (Z.to_nat length);
  advance (Z.to_nat length);;
  ret data.

(** [readBigUint]: 4-byte length, then magnitude; ['0'] for length 0.
    [BigInt('0x' + hex)] throws a SyntaxError when the slice is empty. *)
Definition readBigUint : Reader Z :=
  length ← readAt 4;
  advance 4;;
  if length =? 0 then ret 0
  else
    data ← sliceAt (Z.to_nat length);
    advance (Z.to_nat length);;
    match data with
    | [] => throw SyntaxError
    | _ :: _ => ret (be_value data)
    end.

(** [new Date(ms).toISOString()]: a RangeError when the date is
    invalid, that is when the time value lies beyond ±8.64e15 ms.  The
    string itself is only logged. *)
Definition toISOString (ms : Z) : Reader unit :=
  if Z.abs ms <=? 8640000000000000 then ret tt else throw RangeError.

(** The field-by-field parse of [getLimitOrder]; the returned
    [order_id] is the queried [orderId], not the parsed one.  Between
    the last read and the [return], the decoded order is logged with
    [new Date(Number(expiresAt) * 1000).toISOString()]; the product is
    an exact integer wherever it is within the range of [Date]. *)
Definition parseOrder (orderId : Z) : Reader LimitOrder :=
  parsedOrderId ← readU64;
  userAddress ← sliceAt 32;
  advance 32;;
  fromToken ← readLengthPrefixed;
  fromAmount ← readBigUint;
  toToken ← readLengthPrefixed;
  targetPriceNum ← readBigUint;
  targetPriceDenom ← readBigUint;
  slippageBp ← readU64;
  expiresAt ← readU64;
  status ← readAt 1;
  advance 1;;
  createdAt ← readU64;
  toISOString (JsNum.of_bigint expiresAt * 1000);;
  ret {| order_id := orderId;
         user := userAddress;
         from_token := string_of_list_byte fromToken;
         from_amount := fromAmount;
         to_token := string_of_list_byte toToken;
         target_price_numerator := targetPriceNum;
         target_price_denominator := targetPriceDenom;
         slippage_bp := JsNum.of_bigint slippageBp;
         created_at := JsNum.of_bigint createdAt;
         expires_at := JsNum.of_bigint expiresAt;
         status := status |}.

(** The JSON reply of the [/query] endpoint, [returnData] already
    base64-decoded. *)
Record QueryResponse : Type := {
  returnData : option (list Buffer);
  statusCode : option Z
}.

(** [getLimitOrder]: [null] when the request fails, when no data comes
    back, on status 500, and when parsing throws. *)
Definition getLimitOrder (orderId : Z) (response : result QueryResponse)
    : option LimitOrder :=
  match response with
  | Throw _ => None
  | Ok data =>
      match returnData data with
      | None => None
      | Some [] => None
      | Some (first :: _) =>
          if bool_decide (statusCode data = Some 500) then None
          else
            match run (parseOrder orderId) first with
            | Ok order => Some order
            | Throw _ => None
            end
      end
  end.

End ExecutorDecoder.

(** ** The frontend's decoder: the loop body of [getUserPendingOrders] *)

Module Frontend.
Import Buf.

(** A [Date], by its time value; out of range it is an Invalid Date. *)
Inductive JsDate : Type :=
| DateMs (ms : Z)
| InvalidDate.

Definition new_Date (ms : Z) : JsDate :=
  if Z.abs ms <=? 8640000000000000 then DateMs ms else InvalidDate.

Inductive OrderStatus : Type := Pending | Executed | Cancelled | Expired.

(** Interface [LimitOrder] of limitOrders.ts.  The amount and the two
    price fields are hex strings, kept as the bytes they spell. *)
Record LimitOrder : Type := {
  orderId : Z;
  user : Buffer;
  fromToken : string;
  toToken : string;
  fromAmount : Buffer;
  targetPriceNum : Buffer;
  targetPriceDenom : Buffer;
  slippageBp : Z;
  expiresAt : JsDate;
  status : OrderStatus
}.

Fixpoint buffer_eqb (a b : Buffer) : bool :=
  match a, b with
  | [], [] => true
  | x :: a', y :: b' => Byte.eqb x y && buffer_eqb a' b'
  | _, _ => false
  end.

(** One iteration of the decoding loop.  [userAddress] is the public
    key that the caller's bech32 address denotes; the comparison of the
    two lower-cased bech32 strings is the comparison of the keys.
    [Address.newFromHex] throws unless it is given 32 bytes.  The result
    is [None] when the loop [continue]s. *)
Definition decodeOrder (userAddress : Buffer) : Reader (option LimitOrder) :=
  orderId ← readAt 8;
  advance 8;;
  userBytes ← sliceAt 32;
  if negb (length userBytes =? 32)%nat then throw (Error "invalid address")
  else
    advance 32;;
    if negb (buffer_eqb userBytes userAddress) then ret None
    else
      fromTokenLen ← readAt 4;
      advance 4;;
      fromToken ← sliceAt (Z.to_nat fromTokenLen);
      advance (Z.to_nat fromTokenLen);;
      fromAmountLen ← readAt 4;
      advance 4;;
      fromAmount ← sliceAt (Z.to_nat fromAmountLen);
      advance (Z.to_nat fromAmountLen);;
      toTokenLen ← readAt 4;
      advance 4;;
      toToken ← sliceAt (Z.to_nat toTokenLen);
      advance (Z.to_nat toTokenLen);;
      priceNumLen ← readAt 4;
      advance 4;;
      targetPriceNum ← sliceAt (Z.to_nat priceNumLen);
      advance (Z.to_nat priceNumLen);;
      priceDenomLen ← readAt 4;
      advance 4;;
      targetPriceDenom ← sliceAt (Z.to_nat priceDenomLen);
      advance (Z.to_nat priceDenomLen);;
      (* Slippage BP (2 bytes) *)
      slippageBp ← readAt 2;
      advance 2;;
      (* Skip created_at (8 bytes) *)
      advance 8;;
      (* Expires at (8 bytes) *)
      expiresAtTimestamp ← readAt 8;
      ret (Some {| orderId := JsNum.of_bigint orderId;
                   user := userBytes;
                   fromToken := string_of_list_byte fromToken;
                   toToken := string_of_list_byte toToken;
                   fromAmount := fromAmount;
                   targetPriceNum := targetPriceNum;
                   targetPriceDenom := targetPriceDenom;
                   slippageBp := slippageBp;
                   expiresAt :=
                     new_Date (JsNum.of_bigint expiresAtTimestamp * 1000);
                   status := Pending |}).

Record ApiResponse : Type := {
  ok : bool;
  returnCode : string;
  returnData : option (list Buffer)
}.

(** The orders pushed by the loop: a buffer whose decoding throws is
    logged and skipped, as is an order of another user. *)
Fixpoint decodeOrders (userAddress : Buffer) (encoded : list Buffer)
    : list LimitOrder :=
  match encoded with
  | [] => []
  | buffer :: rest =>
      match run (decodeOrder userAddress) buffer with
      | Ok (Some order) => order :: decodeOrders userAddress rest
      | Ok None => decodeOrders userAddress rest
      | Throw _ => decodeOrders userAddress rest
      end
  end.

Definition getUserPendingOrders
    (userAddress : Buffer) (response : result ApiResponse)
    : list LimitOrder :=
  match response with
  | Throw _ => []
  | Ok data =>
      if negb (ok data) then []
      else if negb (String.eqb (returnCode data) "ok") then []
      else
        match returnData data with
        | None => []
        | Some encoded => decodeOrders userAddress encoded
        end
  end.

End Frontend.

(** ** The executor: [LimitOrderExecutor] *)

Module Executor.
Import Buf.

(** *** Replies of the outside world *)

Record Token : Type := { identifier : string; decimals : Z }.

(** A pair of the xExchange GraphQL reply; the reserves are strings. *)
Record Pair : Type := {
  firstToken : Token;
  secondToken : Token;
  reserves0 : string;
  reserves1 : string
}.

Inductive TxStatus : Type := Successful | Failed | NotFinal.

(** What [executeOrder] is told by the provider and the signer. *)
Record ExecReplies : Type := {
  account_nonce : result Z;            (* provider.getAccount *)
  signature : result unit;             (* signer.sign *)
  sent : result string;                (* provider.sendTransaction *)
  polls : nat -> result TxStatus       (* provider.getTransaction, by poll *)
}.

(** What one call of [checkAndExecuteOrder] is told. *)
Record OrderReplies : Type := {
  now : Z;                                         (* Date.now() *)
  orderQuery : result ExecutorDecoder.QueryResponse; (* getOrder query *)
  pairsQuery : result (option (list Pair));        (* GraphQL pairs *)
  exec : ExecReplies
}.

(** What one sweep is told: the [getPendingOrders] query and the
    replies for the i-th order of the list. *)
Record SweepReplies : Type := {
  pendingQuery : result (option (list Buffer));
  orderReplies : nat -> OrderReplies
}.

(** *** State of the executor object *)

Record State : Type := {
  executorAddress : option string;   (* set together with [signer] *)
  isRunning : bool;
  checkInterval : Z;
  attemptedOrders : gmap Z Z;        (* orderId -> time of last attempt *)
  cooldownPeriod : Z
}.

(** Field initialisers of the class. *)
Definition new : State :=
  {| executorAddress := None;
     isRunning := false;
     checkInterval := 30000;
     attemptedOrders := ∅;
     cooldownPeriod := 300000 |}.

Definition with_attempted (st : State) (m : gmap Z Z) : State :=
  {| executorAddress := executorAddress st;
     isRunning := isRunning st;
     checkInterval := checkInterval st;
     attemptedOrders := m;
     cooldownPeriod := cooldownPeriod st |}.

Definition with_running (st : State) (b : bool) : State :=
  {| executorAddress := executorAddress st;
     isRunning := b;
     checkInterval := checkInterval st;
     attemptedOrders := attemptedOrders st;
     cooldownPeriod := cooldownPeriod st |}.

Definition with_address (st : State) (a : option string) : State :=
  {| executorAddress := a;
     isRunning := isRunning st;
     checkInterval := checkInterval st;
     attemptedOrders := attemptedOrders st;
     cooldownPeriod := cooldownPeriod st |}.

(** The names that a plain object inherits from [Object.prototype]. *)
Definition Object_prototype : list string :=
  [ "constructor"; "__defineGetter__"; "__defineSetter__";
    "hasOwnProperty"; "__lookupGetter__"; "__lookupSetter__";
    "isPrototypeOf"; "propertyIsEnumerable"; "toString"; "valueOf";
    "__proto__"; "toLocaleString" ]%string.

(** What a look-up in [TOKEN_DECIMALS] can give to [||]: a number, or,
    under an inherited name, a function or object, which is truthy and
    so returned as it is. *)
Inductive Decimals : Type :=
| Count (n : Z)
| Inherited.

(** [TOKEN_DECIMALS[tokenIdentifier] || 18]. *)
Definition getTokenDecimals (tokenIdentifier : string) : Decimals :=
  if String.eqb tokenIdentifier "USDC-c76f1f" then Count 6
  else if String.eqb tokenIdentifier "WEGLD-bd4d79" then Count 18
  else if existsb (String.eqb tokenIdentifier) Object_prototype
       then Inherited
       else Count 18.

(** *** Transactions *)

(** The transaction built by [executeOrder]; its data field is
    [executeLimitOrder@orderId@numerator@denominator] in hex. *)
Record Transaction : Type := {
  tx_function : string;
  tx_orderId : Z;
  tx_numerator : Z;
  tx_denominator : Z;
  tx_gasLimit : Z;
  tx_nonce : Z
}.

Inductive WaitLog : Type :=
| LoggedSuccessful       (* "Transaction successful!" *)
| LoggedFailed           (* "Transaction failed" *)
| LoggedPending.         (* "Transaction pending (check explorer)" *)

(** The polling loop of [waitForTransaction], from poll [i] with
    [remaining] polls left.  A throwing poll is swallowed. *)
Fixpoint waitLoop (replies : nat -> result TxStatus) (i remaining : nat)
    : WaitLog :=
  match remaining with
  | O => LoggedPending
  | S remaining' =>
      match replies i with
      | Ok Successful => LoggedSuccessful
      | Ok Failed => LoggedFailed
      | Ok NotFinal => waitLoop replies (S i) remaining'
      | Throw _ => waitLoop replies (S i) remaining'
      end
  end.

(** [waitForTransaction]: returns normally in all three cases; the
    value here is the line it logs, which no caller sees. *)
Definition waitForTransaction (replies : nat -> result TxStatus) : WaitLog :=
  let maxAttempts := 20%nat in
  waitLoop replies 0 maxAttempts.

(** The conversion of [executeOrder] on what [getTokenDecimals]
    returned.  With a function or object for either count,
    [decimalAdjustment] is NaN and so is [PRECISION], and
    [BigInt(PRECISION)] throws a RangeError. *)
Definition priceFraction
    (currentPrice : Double.double)
    (fromTokenDecimals toTokenDecimals : Decimals) : result (Z * Z) :=
  match fromTokenDecimals, toTokenDecimals with
  | Count fromDecimals, Count toDecimals =>
      PriceMath.executeOrder_fraction currentPrice fromDecimals toDecimals
  | _, _ => Throw RangeError
  end.

(** [executeOrder].  First component: the transactions handed to
    [provider.sendTransaction]; second: normal return or the rethrown
    exception. *)
Definition executeOrder
    (st : State) (orderId : Z) (currentPrice : Double.double)
    (fromTokenDecimals toTokenDecimals : Decimals) (io : ExecReplies)
    : list Transaction * result unit :=
  match executorAddress st with
  | None => ([], Throw (Error "Executor wallet not initialized"))
  | Some _ =>
      match priceFraction
              currentPrice fromTokenDecimals toTokenDecimals with
      | Throw e => ([], Throw e)
      | Ok (numerator, denominator) =>
          match account_nonce io with
          | Throw e => ([], Throw e)
          | Ok nonce =>
              let tx := {| tx_function := "executeLimitOrder";
                           tx_orderId := orderId;
                           tx_numerator := numerator;
                           tx_denominator := denominator;
                           tx_gasLimit := 80000000;
                           tx_nonce := nonce |} in
              match signature io with
              | Throw e => ([], Throw e)
              | Ok _ =>
                  match sent io with
                  | Throw e => ([tx], Throw e)
                  | Ok txHash =>
                      let _ := waitForTransaction (polls io) in
                      ([tx], Ok tt)
                  end
              end
          end
      end
  end.

(** *** Price of a pair *)

Definition matches (fromToken toToken : string) (p : Pair) : bool :=
  (String.eqb (identifier (firstToken p)) fromToken
     && String.eqb (identifier (secondToken p)) toToken)
  || (String.eqb (identifier (firstToken p)) toToken
        && String.eqb (identifier (secondToken p)) fromToken).

(** [getTokenPairPrice]: [null] on any failure, on a missing pair and
    on a falsy reserve (zero or NaN); otherwise the quotient of the two
    decimal-adjusted reserves, whatever number that is. *)
Definition getTokenPairPrice
    (response : result (option (list Pair))) (fromToken toToken : string)
    : option Double.double :=
  match response with
  | Throw _ => None
  | Ok None => None
  | Ok (Some []) => None
  | Ok (Some pairs) =>
      match List.find (matches fromToken toToken) pairs with
      | None => None
      | Some pair_ =>
          let reserve0 := Double.parseFloat (reserves0 pair_) in
          let reserve1 := Double.parseFloat (reserves1 pair_) in
          let decimals0 := decimals (firstToken pair_) in
          let decimals1 := decimals (secondToken pair_) in
          if negb (Double.truthy reserve0) || negb (Double.truthy reserve1)
          then None
          else
            let adjustedReserve0 :=
              Double.div reserve0 (Double.pow10 decimals0) in
            let adjustedReserve1 :=
              Double.div reserve1 (Double.pow10 decimals1) in
            if String.eqb (identifier (firstToken pair_)) fromToken
            then Some (Double.div adjustedReserve1 adjustedReserve0)
            else Some (Double.div adjustedReserve0 adjustedReserve1)
      end
  end.

(** [parseFloat(order.target_price_numerator) /
    parseFloat(order.target_price_denominator)]; the two fields hold the
    decimal digits of a bigint. *)
Definition targetPrice (order : LimitOrder) : Double.double :=
  Double.div (Double.of_Z (target_price_numerator order))
             (Double.of_Z (target_price_denominator order)).

(** *** One order *)

(** [lastAttempt && (now - lastAttempt) < this.cooldownPeriod]. *)
Definition onCooldown (st : State) (orderId now : Z) : bool :=
  match attemptedOrders st !! orderId with
  | None => false
  | Some lastAttempt =>
      negb (lastAttempt =? 0) && (now - lastAttempt <? cooldownPeriod st)
  end.

(** [checkAndExecuteOrder]: the new state and the transactions handed to
    the provider. *)
Definition checkAndExecuteOrder
    (st : State) (orderId : Z) (io : OrderReplies)
    : State * list Transaction :=
  let now := now io in
  if onCooldown st orderId now then (st, [])
  else
    match ExecutorDecoder.getLimitOrder orderId (orderQuery io) with
    | None =>
        (with_attempted st (delete orderId (attemptedOrders st)), [])
    | Some order =>
        let nowSeconds := now / 1000 in
        if nowSeconds >? expires_at order then
          (with_attempted st (delete orderId (attemptedOrders st)), [])
        else
          match getTokenPairPrice (pairsQuery io)
                  (from_token order) (to_token order) with
          | None => (st, [])
          | Some currentPrice =>
              if negb (Double.truthy currentPrice) then (st, [])
              else
                let targetPrice := targetPrice order in
                let pairPrice := currentPrice in
                if Double.leb pairPrice targetPrice then
                  let st1 :=
                    with_attempted st
                      (<[orderId := now]> (attemptedOrders st)) in
                  let fromDecimals := getTokenDecimals (from_token order) in
                  let toDecimals := getTokenDecimals (to_token order) in
                  match executeOrder st1 orderId pairPrice
                          fromDecimals toDecimals (exec io) with
                  | (txs, Ok _) =>
                      (with_attempted st1
                         (delete orderId (attemptedOrders st1)), txs)
                  | (txs, Throw _) => (st1, txs)
                  end
                else (st, [])
          end
    end.

(** *** One sweep *)

(** [getPendingOrders]: the order id is the first 8 bytes of each
    returned struct; an empty entry is skipped. *)
Definition getPendingOrders (response : result (option (list Buffer)))
    : list Z :=
  match response with
  | Throw _ => []
  | Ok None => []
  | Ok (Some returnData) =>
      flat_map
        (fun value =>
           match value with
           | [] => []
           | _ :: _ => [JsNum.of_bigint (be_value (firstn 8 value))]
           end)
        returnData
  end.

(** The [for ... of pendingOrderIds] loop, from list position [i]. *)
Fixpoint sweepLoop
    (st : State) (pendingOrderIds : list Z) (i : nat)
    (replies : nat -> OrderReplies) : State * list Transaction :=
  match pendingOrderIds with
  | [] => (st, [])
  | orderId :: rest =>
      let '(st1, txs1) := checkAndExecuteOrder st orderId (replies i) in
      let '(st2, txs2) := sweepLoop st1 rest (S i) replies in
      (st2, txs1 ++ txs2)
  end.

(** [checkAndExecuteOrders]. *)
Definition checkAndExecuteOrders (st : State) (io : SweepReplies)
    : State * list Transaction :=
  if negb (isRunning st) then (st, [])
  else
    let pendingOrderIds := getPendingOrders (pendingQuery io) in
    sweepLoop st pendingOrderIds 0 (orderReplies io).

(** *** Life cycle *)

(** [initializeExecutorWallet]: [pem] is the address read from the PEM
    file, or the error of reading it. *)
Definition initializeExecutorWallet (st : State) (pem : result string)
    : result State :=
  match pem with
  | Ok address => Ok (with_address st (Some address))
  | Throw e => Throw e
  end.

(** [start]: the first sweep runs at once; the last component is the
    delay given to [setInterval] for all later sweeps. *)
Definition start (st : State) (firstSweep : SweepReplies)
    : result (State * list Transaction * Z) :=
  match executorAddress st with
  | None =>
      Throw (Error ("Executor wallet not initialized. "
                    ++ "Call initializeExecutorWallet() first."))
  | Some _ =>
      let st1 := with_running st true in
      let '(st2, txs) := checkAndExecuteOrders st1 firstSweep in
      Ok (st2, txs, checkInterval st2)
  end.

Definition stop (st : State) : State := with_running st false.

Definition clearOrderCooldown (st : State) (orderId : Z) : State :=
  with_attempted st (delete orderId (attemptedOrders st)).

Definition clearAllCooldowns (st : State) : State :=
  with_attempted st ∅.

End Executor.

(** ** The backend entry point: configuration, start-up, status API *)

Module Server.

(** *** [parseInt] without a radix argument *)

Definition is_space (c : ascii) : bool :=
  let n := N_of_ascii c in
  ((9 <=? n) && (n <=? 13))%N || (n =? 32)%N.

Fixpoint trimStart (s : string) : string :=
  match s with
  | String c rest => if is_space c then trimStart rest else s
  | EmptyString => s
  end.

Definition digit_value (radix : Z) (c : ascii) : option Z :=
  let n := Z.of_N (N_of_ascii c) in
  let v :=
    if (48 <=? n) && (n <=? 57) then n - 48
    else if (97 <=? n) && (n <=? 122) then n - 97 + 10
    else if (65 <=? n) && (n <=? 90) then n - 65 + 10
    else radix in
  if v <? radix then Some v else None.

(** The longest prefix of digits; [None] (NaN) when there is none. *)
Fixpoint parse_digits (radix : Z) (s : string) (acc : option Z) : option Z :=
  match s with
  | EmptyString => acc
  | String c rest =>
      match digit_value radix c with
      | None => acc
      | Some d =>
          parse_digits radix rest
            (Some (match acc with Some a => a * radix + d | None => d end))
      end
  end.

Definition parse_unsigned (s : string) : option Z :=
  match s with
  | String "0" (String "x" rest) => parse_digits 16 rest None
  | String "0" (String "X" rest) => parse_digits 16 rest None
  | _ => parse_digits 10 s None
  end.

(** [parseInt(s)]; [None] is NaN. *)
Definition parseInt (s : string) : option Z :=
  match trimStart s with
  | String "-" rest => option_map Z.opp (parse_unsigned rest)
  | String "+" rest => parse_unsigned rest
  | t => parse_unsigned t
  end.

(** *** config.ts *)

(** [process.env]. *)
Definition Env : Type := gmap string string.

(** [process.env.NAME || fallback]: an unset and an empty variable are
    both falsy. *)
Definition env_or (env : gmap string string) (name fallback : string)
    : string :=
  match env !! name with
  | Some (String c rest) => String c rest
  | Some EmptyString => fallback
  | None => fallback
  end.

Record LimitOrderConfig : Type := {
  enabled : bool;
  checkIntervalSeconds : option Z;
  executorPemPath : string
}.

Definition LIMIT_ORDER_CONFIG (env : gmap string string) : LimitOrderConfig :=
  {| enabled :=
       bool_decide (env !! "ENABLE_LIMIT_ORDER_EXECUTOR" = Some "true");
     checkIntervalSeconds :=
       parseInt (env_or env "LIMIT_ORDER_CHECK_INTERVAL" "30");
     executorPemPath :=
       env_or env "EXECUTOR_WALLET_PEM_PATH" "./executor-wallet.pem" |}.

Definition CONTRACT_ADDRESS : string :=
  "erd1qqqqqqqqqqqqqpgqhcmms89zn6997pvpv9g7ckpcxz4mnjn088zqtvnz29".

(** *** index.ts: start-up *)

(** The state of the process after start-up. *)
Record Process : Type := {
  limitOrderExecutor : Executor.State;
  submitted : list Executor.Transaction;
  sweepTimer : option Z          (* delay of the [setInterval] timer, ms *)
}.

(** The top level of index.ts: [new LimitOrderExecutor()], then, when
    enabled, [initializeExecutorWallet(...).then(() => start())], a
    failure of either being logged.  [pem] answers the read of the PEM
    file at [LIMIT_ORDER_CONFIG.executorPemPath]. *)
Definition boot
    (env : gmap string string) (pem : string -> result string)
    (firstSweep : Executor.SweepReplies) : Process :=
  let config := LIMIT_ORDER_CONFIG env in
  let executor := Executor.new in
  if enabled config then
    match Executor.initializeExecutorWallet
            executor (pem (executorPemPath config)) with
    | Throw _ =>
        {| limitOrderExecutor := executor; submitted := [];
           sweepTimer := None |}
    | Ok executor1 =>
        match Executor.start executor1 firstSweep with
        | Throw _ =>
            {| limitOrderExecutor := executor1; submitted := [];
               sweepTimer := None |}
        | Ok (executor2, txs, delay) =>
            {| limitOrderExecutor := executor2; submitted := txs;
               sweepTimer := Some delay |}
        end
    end
  else
    {| limitOrderExecutor := executor; submitted := []; sweepTimer := None |}.

(** *** JSON values and HTTP responses *)

#[warnings="-register-all"]
Inductive Json : Type :=
| JNull
| JBool (b : bool)
| JNumber (n : Z)
| JString (s : string)
| JObject (members : list (string * Json)).

(** [value.key] of a JSON object. *)
Definition member (key : string) (value : Json) : option Json :=
  match value with
  | JObject members =>
      match List.find (fun kv => String.eqb (fst kv) key) members with
      | Some kv => Some (snd kv)
      | None => None
      end
  | _ => None
  end.

Definition keys (value : Json) : list string :=
  match value with
  | JObject members => map fst members
  | _ => []
  end.

Record Response : Type := { httpStatus : Z; body : Json }.

(** [res.json(value)]: status 200 and the value as body. *)
Definition res_json (value : Json) : Response :=
  {| httpStatus := 200; body := value |}.

(** [LimitOrderExecutor.getStatus]. *)
Definition getStatus (st : Executor.State) : Json :=
  JObject
    [ ("running", JBool (Executor.isRunning st));
      ("executorAddress",
         match Executor.executorAddress st with
         | Some bech32 => JString bech32
         | None => JNull
         end);
      ("checkInterval", JNumber (Executor.checkInterval st));
      ("cooldownPeriod", JNumber (Executor.cooldownPeriod st));
      ("attemptedOrdersCount",
         JNumber (Z.of_nat (size (Executor.attemptedOrders st))));
      ("contractAddress", JString CONTRACT_ADDRESS) ]%string.

(** Handler of [GET /health]. *)
Definition health (env : gmap string string) (st : Executor.State)
    : Response :=
  res_json
    (JObject
       [ ("status", JString "ok");
         ("service", JString "stellarnova-backend");
         ("limitOrderExecutor",
            JObject
              [ ("enabled", JBool (enabled (LIMIT_ORDER_CONFIG env)));
                ("running", getStatus st) ]) ]%string).

(** Handler of [GET /api/limit-orders/executor/status]. *)
Definition executorStatus (st : Executor.State) : Response :=
  res_json (getStatus st).

End Server.

(** ** Sample data used by the examples *)

Module Samples.

Definition alice : Buf.Buffer := repeat x07 32.

(** The order of scenario S1: 10 USDC for WEGLD at 0.155, 5% slippage. *)
Definition order20 : LimitOrder :=
  {| order_id := 20;
     user := alice;
     from_token := "USDC-c76f1f";
     from_amount := 10000000;
     to_token := "WEGLD-bd4d79";
     target_price_numerator := 155000000000000;
     target_price_denominator := 1000;
     slippage_bp := 500;
     created_at := 1699996400;
     expires_at := 1700000000;
     status := 0 |}.

(** The reply of the contract's [getOrder] view for [order20]. *)
Definition order20_query : result ExecutorDecoder.QueryResponse :=
  Ok {| ExecutorDecoder.returnData := Some [Contract.encode_order order20];
        ExecutorDecoder.statusCode := None |}.

(** A USDC/WEGLD pool: 1 000 000 USDC against 150 000 WEGLD, spot price
    0.15 WEGLD per USDC. *)
Definition pool : Executor.Pair :=
  {| Executor.firstToken :=
       {| Executor.identifier := "USDC-c76f1f"; Executor.decimals := 6 |};
     Executor.secondToken :=
       {| Executor.identifier := "WEGLD-bd4d79"; Executor.decimals := 18 |};
     Executor.reserves0 := "1000000000000";
     Executor.reserves1 := "150000000000000000000000" |}.

(** The provider accepts the transaction and every poll reports
    [status]. *)
Definition accepted (status : result Executor.TxStatus)
    : Executor.ExecReplies :=
  {| Executor.account_nonce := Ok 7;
     Executor.signature := Ok tt;
     Executor.sent := Ok "d2e49c5"%string;
     Executor.polls := fun _ => status |}.

(** Replies to one look at [order20] at wall-clock time [t] (ms). *)
Definition look (t : Z) (status : result Executor.TxStatus)
    : Executor.OrderReplies :=
  {| Executor.now := t;
     Executor.orderQuery := order20_query;
     Executor.pairsQuery := Ok (Some [pool]);
     Executor.exec := accepted status |}.

(** A sweep at time [t] that finds [order20] pending. *)
Definition sweep (t : Z) (status : result Executor.TxStatus)
    : Executor.SweepReplies :=
  {| Executor.pendingQuery := Ok (Some [Contract.encode_order order20]);
     Executor.orderReplies := fun _ => look t status |}.

(** A started executor with an empty cooldown table. *)
Definition running : Executor.State :=
  Executor.with_running
    (Executor.with_address Executor.new (Some "erd1executor"%string)) true.

(** 2023-11-14T21:13:20Z, one hour before [order20] expires. *)
Definition t0 : Z := 1699996400000.

End Samples.

(** ** Transaction payloads: the hexadecimal arguments *)

Module TxData.

Definition hex_digit (d : Z) : ascii :=
  nth (Z.to_nat d)
    ["0"; "1"; "2"; "3"; "4"; "5"; "6"; "7";
     "8"; "9"; "a"; "b"; "c"; "d"; "e"; "f"]%char "0"%char.

(** The [k] low-order hexadecimal digits of [n], most significant first. *)
Fixpoint hex_fixed (k : nat) (n : Z) : string :=
  match k with
  | O => EmptyString
  | S k' => hex_fixed k' (n / 16) ++ String (hex_digit (n mod 16)) EmptyString
  end.

(** Number of hexadecimal digits of a non-negative integer, [1] for 0. *)
Definition hex_length (n : Z) : nat :=
  if n =? 0 then 1%nat else Z.to_nat (Z.log2 n / 4 + 1).

(** [n.toString(16)] of an integer, number or bigint: the digits without
    leading zero, after a minus sign when negative. *)
Definition toString16 (n : Z) : string :=
  if n <? 0 then String "-" (hex_fixed (hex_length (- n)) (- n))
  else hex_fixed (hex_length n) n.

(** [toEvenHex] of [executeOrder], and the same two lines repeated in the
    frontend: [if (hex.length % 2 !== 0) hex = '0' + hex]. *)
Definition toEvenHex (num : Z) : string :=
  let hex := toString16 num in
  if negb (String.length hex mod 2 =? 0)%nat then String "0" hex else hex.

Fixpoint zeros (n : nat) : string :=
  match n with
  | O => EmptyString
  | S n' => String "0" (zeros n')
  end.

(** [s.padStart(targetLength, '0')]. *)
Definition padStart (s : string) (targetLength : nat) : string :=
  zeros (targetLength - String.length s) ++ s.

(** The three arguments of the data field built by [executeOrder]. *)
Definition executeOrder_args (orderId numerator denominator : Z)
    : string * string * string :=
  let orderIdHex := padStart (toString16 orderId) 16 in
  let numeratorHex := toEvenHex numerator in
  let denominatorHex := toEvenHex denominator in
  (orderIdHex, numeratorHex, denominatorHex).

(** The data field
    [executeLimitOrder@${orderIdHex}@${numeratorHex}@${denominatorHex}]. *)
Definition executeOrder_data (orderId numerator denominator : Z) : string :=
  let '(orderIdHex, numeratorHex, denominatorHex) :=
    executeOrder_args orderId numerator denominator in
  "executeLimitOrder@" ++ orderIdHex ++ "@" ++ numeratorHex
    ++ "@" ++ denominatorHex.

(** The data field [cancelLimitOrder@${orderIdHex}] of the frontend's
    [cancelLimitOrder]. *)
Definition cancelLimitOrder_data (orderId : Z) : string :=
  let orderIdHex := toEvenHex orderId in
  "cancelLimitOrder@" ++ orderIdHex.

End TxData.

(** ** The frontend's price helper *)

Module FrontendPrice.

(** The reply of the GraphQL request. *)
Record GraphReply : Type := {
  ok : bool;                               (* response.ok *)
  errors : bool;                           (* data.errors is truthy *)
  pairs : option (list Executor.Pair)      (* data.data?.pairs *)
}.

(** [getCurrentPriceFromXExchange]: [null] when the request or the query
    fails and when no pair matches; otherwise the price and
    [1 / price], with no check of the reserves. *)
Definition getCurrentPriceFromXExchange
    (response : result GraphReply) (fromToken toToken : string)
    : option (Double.double * Double.double) :=
  match response with
  | Throw _ => None
  | Ok data =>
      if negb (ok data) then None
      else if errors data then None
      else
        let pairs := match pairs data with Some l => l | None => [] end in
        match List.find (Executor.matches fromToken toToken) pairs with
        | None => None
        | Some pair_ =>
            let reserve0 := Double.parseFloat (Executor.reserves0 pair_) in
            let reserve1 := Double.parseFloat (Executor.reserves1 pair_) in
            let decimals0 := Executor.decimals (Executor.firstToken pair_) in
            let decimals1 := Executor.decimals (Executor.secondToken pair_) in
            let adjustedReserve0 :=
              Double.div reserve0 (Double.pow10 decimals0) in
            let adjustedReserve1 :=
              Double.div reserve1 (Double.pow10 decimals1) in
            let price :=
              if String.eqb
                   (Executor.identifier (Executor.firstToken pair_)) fromToken
              then Double.div adjustedReserve1 adjustedReserve0
              else Double.div adjustedReserve0 adjustedReserve1 in
            Some (price, Double.div (Double.of_Z 1) price)
        end
  end.

End FrontendPrice.

(** ** The order list of the frontend: expiry display *)

Module OrderManager.

(** [isExpired]: an invalid date counts as not expired. *)
Definition isExpired (expiresAt : Frontend.JsDate) (now : Z) : bool :=
  match expiresAt with
  | Frontend.InvalidDate => false
  | Frontend.DateMs ms => now >? ms
  end.

(** The labels of [formatTimeRemaining], by template and numbers. *)
Inductive TimeRemaining : Type :=
| NotAvailable                    (* 'N/A' *)
| ExpiredLabel                    (* 'Expired' *)
| DaysHours (days hours : Z)      (* `${days}d ${hours % 24}h` *)
| HoursMinutes (hours minutes : Z) (* `${hours}h ${minutes % 60}m` *)
| Minutes (minutes : Z).          (* `${minutes}m` *)

(** [formatTimeRemaining], with the current time [now] in ms. *)
Definition formatTimeRemaining (expiresAt : Frontend.JsDate) (now : Z)
    : TimeRemaining :=
  match expiresAt with
  | Frontend.InvalidDate => NotAvailable
  | Frontend.DateMs ms =>
      let diff := ms - now in
      if diff <=? 0 then ExpiredLabel
      else
        let minutes := diff / 60000 in
        let hours := minutes / 60 in
        let days := hours / 24 in
        if days >? 0 then DaysHours days (hours mod 24)
        else if hours >? 0 then HoursMinutes hours (minutes mod 60)
        else Minutes minutes
  end.

End OrderManager.

(** ** Readers that stop inside a field *)

Module Reading.
Import Buf.

(** A reader that, started at [field], yields [v]; where it stops is left
    open. *)
Definition yields {A} (m : Reader A) (field : Buffer) (v : A) : Prop :=
  forall pre rest,
    exists off, m (pre ++ field ++ rest) (length pre) = Ok (v, off).

End Reading.

(** ** More sample data *)

Module MoreSamples.

(** [Samples.order20] with the expiry [expires]. *)
Definition order20_until (expires : Z) : LimitOrder :=
  {| order_id := 20;
     user := Samples.alice;
     from_token := "USDC-c76f1f";
     from_amount := 10000000;
     to_token := "WEGLD-bd4d79";
     target_price_numerator := 155000000000000;
     target_price_denominator := 1000;
     slippage_bp := 500;
     created_at := 1699996400;
     expires_at := expires;
     status := 0 |}.

(** [Samples.running] with order 20 attempted at [Samples.t0]. *)
Definition cooling : Executor.State :=
  Executor.with_attempted Samples.running {[ 20 := Samples.t0 ]}.

(** An order asking for WEGLD at a ratio of 1/10, below the pool's 0.15. *)
Definition order21 : LimitOrder :=
  {| order_id := 21;
     user := Samples.alice;
     from_token := "USDC-c76f1f";
     from_amount := 5000000;
     to_token := "WEGLD-bd4d79";
     target_price_numerator := 1;
     target_price_denominator := 10;
     slippage_bp := 100;
     created_at := 1699996400;
     expires_at := 1700000000;
     status := 0 |}.

(** Replies to one look at [order21] at time [t]. *)
Definition look21 (t : Z) : Executor.OrderReplies :=
  {| Executor.now := t;
     Executor.orderQuery :=
       Ok {| ExecutorDecoder.returnData :=
               Some [Contract.encode_order order21];
             ExecutorDecoder.statusCode := None |};
     Executor.pairsQuery := Ok (Some [Samples.pool]);
     Executor.exec := Samples.accepted (Ok Executor.Successful) |}.

(** A USDC/WEGLD pool with the given reserves, in base units. *)
Definition usdc_wegld (reserves0 reserves1 : string) : Executor.Pair :=
  {| Executor.firstToken :=
       {| Executor.identifier := "USDC-c76f1f"; Executor.decimals := 6 |};
     Executor.secondToken :=
       {| Executor.identifier := "WEGLD-bd4d79"; Executor.decimals := 18 |};
     Executor.reserves0 := reserves0;
     Executor.reserves1 := reserves1 |}.

(** An order asking for WEGLD at a ratio of 7/10. *)
Definition order22 : LimitOrder :=
  {| order_id := 22;
     user := Samples.alice;
     from_token := "USDC-c76f1f";
     from_amount := 7000000;
     to_token := "WEGLD-bd4d79";
     target_price_numerator := 7;
     target_price_denominator := 10;
     slippage_bp := 100;
     created_at := 1699996400;
     expires_at := 1700000000;
     status := 0 |}.

(** Replies to one look at the order [o] at time [t], the pair query
    answering with the one pool [pool]. *)
Definition look_at (o : LimitOrder) (pool : Executor.Pair) (t : Z)
    : Executor.OrderReplies :=
  {| Executor.now := t;
     Executor.orderQuery :=
       Ok {| ExecutorDecoder.returnData := Some [Contract.encode_order o];
             ExecutorDecoder.statusCode := None |};
     Executor.pairsQuery := Ok (Some [pool]);
     Executor.exec := Samples.accepted (Ok Executor.Successful) |}.

(** Replies to a look at order 20 whose [getOrder] query finds nothing. *)
Definition look_missing (t : Z) : Executor.OrderReplies :=
  {| Executor.now := t;
     Executor.orderQuery :=
       Ok {| ExecutorDecoder.returnData := Some [];
             ExecutorDecoder.statusCode := None |};
     Executor.pairsQuery := Ok (Some [Samples.pool]);
     Executor.exec := Samples.accepted (Ok Executor.Successful) |}.

End MoreSamples.

(** * Properties *)

(** ** Price math *)

Module PriceMathFacts.
Import PriceMath.

Lemma precision_nonneg_iff (fromDecimals toDecimals : Z) :
  0 <= PRECISION fromDecimals toDecimals
  <-> Z.abs (toDecimals - fromDecimals) <= 15.
Proof. unfold PRECISION, MAX_SAFE_EXPONENT. lia. Qed.

(** [Math.pow(10, n)] holds the integer 10^n exactly for the values that
    PRECISION can take. *)
Lemma pow10_precision_exact (n : Z) :
  0 <= n <= 6 ->
  Double.pow10 n = Double.of_Z (10 ^ n)
  /\ Double.floor (Double.of_Z (10 ^ n)) = Some (10 ^ n).
Proof.
  intros Hn.
  assert (H : n = 0 \/ n = 1 \/ n = 2 \/ n = 3 \/ n = 4 \/ n = 5 \/ n = 6)
    by lia.
  destruct H as [-> | [-> | [-> | [-> | [-> | [-> | ->]]]]]];
    split; vm_compute; reflexivity.
Qed.

(** C2, as stated, fails: the numerator is not the floor of the exact
    product.  For the number 0.155 and decimals 6 and 18 the exact
    product of the double with 10^15 lies below 155 000 000 000 000 and
    the code returns 155 000 000 000 000; for the literal 1.005 and equal
    decimals floor(1.005 · 10^6) is 1 005 000 and the code returns
    1 004 999. *)
Lemma numerator_is_not_the_exact_floor :
  executeOrder_fraction (Double.of_ratio 155 1000) 6 18
  = Ok (155000000000000, 1000)
  /\ Qfloor (Double.to_Q (Double.of_ratio 155 1000) * 10 ^ (3 + 12))
     = 154999999999999
  /\ executeOrder_fraction (Double.parseFloat "1.005") 6 6
     = Ok (1004999, 1000000)
  /\ Qfloor ((1005 # 1000) * 10 ^ (6 + 0)) = 1005000.
Proof. vm_compute. repeat split; reflexivity. Qed.

(** C2, amended.  With Δ = decimals_to − decimals_from and
    PRECISION = min(6, 15 − |Δ|) not negative, the conversion of
    [executeOrder] returns the denominator 10^PRECISION and, as
    numerator, the floor of the double-precision product of p and
    10^(PRECISION + Δ) (it throws when that product is not finite), and
    [calculateTargetPriceWithDecimals] of the frontend returns the same
    two numbers for the same inputs, its denominator being the double
    that holds 10^PRECISION exactly. *)
Theorem price_to_fraction_agrees
    (p : Double.double) (decimals_from decimals_to : Z) :
  Z.abs (decimals_to - decimals_from) <= 15 ->
  let delta := decimals_to - decimals_from in
  let precision := Z.min 6 (15 - Z.abs delta) in
  let scaled := Double.mul p (Double.pow10 (precision + delta)) in
  executeOrder_fraction p decimals_from decimals_to
  = match Double.floor scaled with
    | Some num => Ok (num, 10 ^ precision)
    | None => Throw RangeError
    end
  /\ fst (calculateTargetPriceWithDecimals p decimals_from decimals_to)
     = Double.floor scaled
  /\ Double.floor
       (snd (calculateTargetPriceWithDecimals p decimals_from decimals_to))
     = Some (10 ^ precision).
Proof.
  intros Hrange delta precision scaled.
  assert (Hp : 0 <= precision <= 6) by (unfold precision, delta; lia).
  split; [|split].
  - unfold executeOrder_fraction, MAX_SAFE_EXPONENT.
    fold delta. fold precision. fold scaled.
    destruct (Z.ltb_spec precision 0) as [Hneg|_]; [lia|].
    reflexivity.
  - reflexivity.
  - unfold calculateTargetPriceWithDecimals, MAX_SAFE_EXPONENT.
    fold delta. fold precision. cbn [snd].
    destruct (pow10_precision_exact precision Hp) as [-> ->].
    reflexivity.
Qed.

(** Scenario S1: 0.155 WEGLD per USDC, decimals 6 and 18. *)
Lemma price_to_fraction_agrees_witness :
  Z.abs (18 - 6) <= 15
  /\ executeOrder_fraction (Double.of_ratio 155 1000) 6 18
     = Ok (155000000000000, 1000)
  /\ fst (calculateTargetPriceWithDecimals (Double.of_ratio 155 1000) 6 18)
     = Some 155000000000000.
Proof.
  assert (H : Z.abs (18 - 6) <= 15) by (vm_compute; discriminate).
  split; [exact H|].
  destruct (price_to_fraction_agrees (Double.of_ratio 155 1000) 6 18 H)
    as (He & Hf & _).
  split; [rewrite He | rewrite Hf]; vm_compute; reflexivity.
Defined.

(** C5, as stated, fails at |Δ| = 15: there PRECISION is 0, not
    negative, and the executor's conversion returns a pair. *)
Lemma conversion_at_delta_15_succeeds :
  15 <= Z.abs (15 - 0)
  /\ PRECISION 0 15 = 0
  /\ executeOrder_fraction (Double.of_ratio 155 1000) 0 15
     = Ok (155000000000000, 1).
Proof. vm_compute. repeat split; discriminate. Qed.

(** C5, amended.  PRECISION is negative exactly for |Δ| ≥ 16, and for
    every such pair of decimal counts the executor's conversion reports
    an error instead of producing a pair, whatever the price. *)
Theorem conversion_fails_when_precision_negative
    (p : Double.double) (decimals_from decimals_to : Z) :
  PRECISION decimals_from decimals_to < 0
  \/ 16 <= Z.abs (decimals_to - decimals_from) ->
  PRECISION decimals_from decimals_to < 0
  /\ 16 <= Z.abs (decimals_to - decimals_from)
  /\ is_ok (executeOrder_fraction p decimals_from decimals_to) = false.
Proof.
  intros H.
  assert (Hneg : PRECISION decimals_from decimals_to < 0)
    by (unfold PRECISION, MAX_SAFE_EXPONENT in *; lia).
  split; [exact Hneg|].
  split; [unfold PRECISION, MAX_SAFE_EXPONENT in Hneg; lia|].
  unfold executeOrder_fraction.
  fold (PRECISION decimals_from decimals_to).
  destruct (Z.ltb_spec (PRECISION decimals_from decimals_to) 0);
    [reflexivity | lia].
Qed.

(** USDC towards a token of 24 decimals. *)
Lemma conversion_fails_when_precision_negative_witness :
  PRECISION 6 24 < 0
  /\ is_ok (executeOrder_fraction (Double.of_ratio 155 1000) 6 24) = false.
Proof.
  destruct (conversion_fails_when_precision_negative
              (Double.of_ratio 155 1000) 6 24) as (Hp & _ & Hf).
  - right. vm_compute. discriminate.
  - split; [exact Hp | exact Hf].
Defined.

End PriceMathFacts.

(** ** Buffers: big-endian round trips *)

Module BufFacts.
Import Buf.

Lemma byte_value_of_Z (z : Z) : byte_value (byte_of_Z z) = z mod 256.
Proof.
  unfold byte_value, byte_of_Z.
  assert (Hr : 0 <= z mod 256 < 256) by (apply Z.mod_pos_bound; lia).
  destruct (Byte.of_N (Z.to_N (z mod 256))) as [b|] eqn:Hb.
  - apply Byte.to_of_N in Hb. rewrite Hb. lia.
  - apply Byte.of_N_None_iff in Hb. lia.
Qed.

Lemma be_bytes_length (k : nat) : forall n, length (be_bytes k n) = k.
Proof.
  induction k as [|k IH]; intros n; simpl; [reflexivity|].
  rewrite length_app, IH. simpl. lia.
Qed.

Lemma be_value_snoc (bs : list byte) (b : byte) :
  be_value (bs ++ [b]) = be_value bs * 256 + byte_value b.
Proof. unfold be_value. rewrite fold_left_app. reflexivity. Qed.

Lemma be_value_be_bytes_mod (k : nat) :
  forall n, be_value (be_bytes k n) = n mod 256 ^ Z.of_nat k.
Proof.
  induction k as [|k IH]; intros n.
  - simpl. rewrite Z.mod_1_r. reflexivity.
  - cbn [be_bytes]. rewrite be_value_snoc, IH, byte_value_of_Z.
    rewrite Nat2Z.inj_succ, Z.pow_succ_r by lia.
    rewrite (Z.rem_mul_r n 256 (256 ^ Z.of_nat k)) by lia.
    rewrite Z.mod_mod by lia. ring.
Qed.

Lemma be_value_be_bytes (k : nat) (n : Z) :
  0 <= n < 256 ^ Z.of_nat k -> be_value (be_bytes k n) = n.
Proof.
  intros Hn. rewrite be_value_be_bytes_mod. apply Z.mod_small. exact Hn.
Qed.

Lemma slice_middle (pre field rest : Buffer) (n : nat) :
  length field = n ->
  slice (pre ++ field ++ rest) (length pre) (length pre + n) = field.
Proof.
  intros Hn. unfold slice.
  rewrite drop_app_length.
  replace (length pre + n - length pre)%nat with (length field) by lia.
  apply take_app_length.
Qed.

Lemma peeks_readAt (width : nat) (v : Z) :
  0 <= v < 256 ^ Z.of_nat width ->
  peeks (readAt width) (be_bytes width v) v.
Proof.
  intros Hv pre rest. unfold readAt, readUIntBE.
  assert (Hlen : length (be_bytes width v) = width)
    by apply be_bytes_length.
  destruct (Nat.leb_spec (length pre + width)
              (length (pre ++ be_bytes width v ++ rest))) as [_|Hlt].
  - rewrite slice_middle by exact Hlen.
    rewrite be_value_be_bytes by exact Hv. reflexivity.
  - rewrite !length_app, Hlen in Hlt. lia.
Qed.

Lemma peeks_sliceAt (field : Buffer) (n : nat) :
  length field = n -> peeks (sliceAt n) field field.
Proof.
  intros Hn pre rest. unfold sliceAt.
  rewrite slice_middle by exact Hn. reflexivity.
Qed.

Lemma decodes_ret {A} (v : A) : decodes (ret v) [] v.
Proof. intros pre rest. unfold ret. rewrite app_nil_r. reflexivity. Qed.

Lemma decodes_bind {A B} (m : Reader A) (k : A -> Reader B)
    (f1 f2 : Buffer) (a : A) (v : B) :
  decodes m f1 a -> decodes (k a) f2 v ->
  decodes (mbind k m) (f1 ++ f2) v.
Proof.
  intros H1 H2 pre rest. unfold mbind, reader_bind, bind.
  rewrite <- (app_assoc f1 f2 rest), (H1 pre (f2 ++ rest)).
  rewrite (app_assoc pre f1 (f2 ++ rest)), (H2 (pre ++ f1) rest).
  rewrite <- !app_assoc. reflexivity.
Qed.

(** The recurring [x = read(offset); offset += n; ...] step. *)
Lemma decodes_peek_advance {A B} (m : Reader A) (k : A -> Reader B)
    (n : nat) (f1 f2 : Buffer) (a : A) (v : B) :
  peeks m f1 a -> length f1 = n -> decodes (k a) f2 v ->
  decodes (mbind (fun x => mbind (fun _ : unit => k x) (advance n)) m)
          (f1 ++ f2) v.
Proof.
  intros H1 Hn H2 pre rest. unfold mbind, reader_bind, bind, advance.
  rewrite <- (app_assoc f1 f2 rest), (H1 pre (f2 ++ rest)).
  replace (length pre + n)%nat with (length (pre ++ f1))
    by (rewrite length_app; lia).
  rewrite (app_assoc pre f1 (f2 ++ rest)), (H2 (pre ++ f1) rest).
  rewrite <- !app_assoc. reflexivity.
Qed.

Lemma decodes_run {A} (m : Reader A) (field : Buffer) (v : A) :
  decodes m field v -> run m field = Ok v.
Proof.
  intros H. unfold run. specialize (H [] []).
  rewrite app_nil_r in H. simpl in H. rewrite H. reflexivity.
Qed.

End BufFacts.

(** ** The executor's decoder inverts the contract's layout *)

Module DecoderFacts.
Import Buf BufFacts Contract ExecutorDecoder.

Lemma decodes_eq {A} (m : Reader A) (f f' : Buffer) (v v' : A) :
  decodes m f v -> f = f' -> v = v' -> decodes m f' v'.
Proof. intros H -> ->. exact H. Qed.

Lemma list_byte_of_string_length (s : string) :
  length (list_byte_of_string s) = String.length s.
Proof.
  unfold list_byte_of_string. rewrite length_map.
  induction s as [|c s IH]; simpl; [reflexivity|]. now rewrite IH.
Qed.

Lemma byte_length_bound (n : Z) :
  0 <= n -> 0 <= n < 256 ^ Z.of_nat (byte_length n).
Proof.
  intros Hn. unfold byte_length.
  destruct (Z.eqb_spec n 0) as [->|Hne]; [simpl; lia|].
  assert (Hpos : 0 < n) by lia.
  assert (Hq : 0 <= Z.log2 n / 8)
    by (apply Z.div_pos; [apply Z.log2_nonneg | lia]).
  rewrite Z2Nat.id by lia.
  change 256 with (2 ^ 8). rewrite <- Z.pow_mul_r by lia.
  split; [lia|].
  apply Z.log2_lt_pow2; [exact Hpos|].
  pose proof (Z.mul_succ_div_gt (Z.log2 n) 8 ltac:(lia)). lia.
Qed.

Lemma byte_length_pos (n : Z) : 0 < n -> (0 < byte_length n)%nat.
Proof.
  intros Hn. unfold byte_length.
  destruct (Z.eqb_spec n 0) as [->|_]; [lia|].
  assert (0 <= Z.log2 n / 8)
    by (apply Z.div_pos; [apply Z.log2_nonneg | lia]).
  lia.
Qed.

Lemma decodes_readU64 (v : Z) :
  0 <= v < 2 ^ 64 -> decodes readU64 (encode_u64 v) v.
Proof.
  intros Hv. unfold readU64, encode_u64.
  eapply decodes_eq;
    [ eapply (decodes_peek_advance (readAt 8) (fun x => ret x) 8
                (be_bytes 8 v) [] v v)
    | apply app_nil_r | reflexivity ].
  - apply peeks_readAt. exact Hv.
  - apply be_bytes_length.
  - apply decodes_ret.
Qed.

Lemma decodes_readLengthPrefixed (bs : Buffer) :
  Z.of_nat (length bs) < 2 ^ 32 ->
  decodes readLengthPrefixed (encode_bytes bs) bs.
Proof.
  intros Hlen. unfold readLengthPrefixed, encode_bytes.
  eapply (decodes_peek_advance (readAt 4) _ 4
            (be_bytes 4 (Z.of_nat (length bs))) bs).
  - apply peeks_readAt. change (256 ^ Z.of_nat 4) with (2 ^ 32). lia.
  - apply be_bytes_length.
  - cbv beta. rewrite Nat2Z.id.
    eapply decodes_eq;
      [ eapply (decodes_peek_advance (sliceAt (length bs))
                  (fun x => ret x) (length bs) bs [] bs bs)
      | apply app_nil_r | reflexivity ].
    + apply peeks_sliceAt. reflexivity.
    + reflexivity.
    + apply decodes_ret.
Qed.

Lemma decodes_readBigUint (n : Z) :
  0 <= n -> Z.of_nat (byte_length n) < 2 ^ 32 ->
  decodes readBigUint (encode_biguint n) n.
Proof.
  intros Hn Hlen. unfold readBigUint, encode_biguint.
  eapply (decodes_peek_advance (readAt 4) _ 4
            (be_bytes 4 (Z.of_nat (byte_length n)))
            (be_bytes (byte_length n) n)).
  - apply peeks_readAt. change (256 ^ Z.of_nat 4) with (2 ^ 32). lia.
  - apply be_bytes_length.
  - cbv beta.
    destruct (Z.eqb_spec (Z.of_nat (byte_length n)) 0) as [Hz|Hnz].
    + assert (Hk : byte_length n = 0%nat) by lia.
      rewrite Hk. simpl.
      assert (n = 0) as ->.
      { pose proof (byte_length_bound n Hn) as Hb.
        rewrite Hk in Hb. simpl in Hb. lia. }
      apply decodes_ret.
    + rewrite Nat2Z.id.
      set (data := be_bytes (byte_length n) n).
      assert (Hdata : length data = byte_length n)
        by apply be_bytes_length.
      eapply decodes_eq;
        [ eapply (decodes_peek_advance (sliceAt (byte_length n))
                    (fun d : Buffer =>
                       match d with
                       | [] => throw SyntaxError
                       | _ :: _ => ret (be_value d)
                       end)
                    (byte_length n) data [] data n)
        | apply app_nil_r | reflexivity ].
      * apply peeks_sliceAt. exact Hdata.
      * exact Hdata.
      * destruct data as [|b data'] eqn:Hd.
        { simpl in Hdata. lia. }
        rewrite <- Hd. unfold data.
        rewrite be_value_be_bytes by (apply byte_length_bound; exact Hn).
        apply decodes_ret.
Qed.

Lemma decodes_toISOString (ms : Z) :
  Z.abs ms <= 8640000000000000 -> decodes (toISOString ms) [] tt.
Proof.
  intros H. unfold toISOString.
  destruct (Z.leb_spec (Z.abs ms) 8640000000000000); [|lia].
  apply decodes_ret.
Qed.

(** The parse consumes the whole encoding and rebuilds the order, when
    the expiry is a time that [Date] can hold. *)
Lemma decodes_parseOrder (o : LimitOrder) :
  well_formed o ->
  expires_at o <= 8640000000000 ->
  decodes (parseOrder (order_id o)) (encode_order o) o.
Proof.
  intros [Hid Huser Hft Hfa Hfal Htt Hnum Hnuml Hden Hdenl Hsl Hex Hst Hcr]
         Hdate.
  assert (H53 : 2 ^ 53 < 2 ^ 64) by reflexivity.
  assert (Hexact : forall v, v < 2 ^ 53 -> JsNum.of_bigint v = v).
  { intros v Hv. unfold JsNum.of_bigint.
    destruct (Z.ltb_spec v (2 ^ 53)); [reflexivity | lia]. }
  unfold parseOrder, encode_order.
  eapply decodes_bind; [apply decodes_readU64; exact Hid|]. cbv beta.
  eapply (decodes_peek_advance (sliceAt 32) _ 32 (user o));
    [apply peeks_sliceAt; exact Huser | exact Huser |]. cbv beta.
  eapply decodes_bind;
    [apply decodes_readLengthPrefixed;
     rewrite list_byte_of_string_length; exact Hft|]. cbv beta.
  eapply decodes_bind;
    [apply decodes_readBigUint; [exact Hfa | exact Hfal]|]. cbv beta.
  eapply decodes_bind;
    [apply decodes_readLengthPrefixed;
     rewrite list_byte_of_string_length; exact Htt|]. cbv beta.
  eapply decodes_bind;
    [apply decodes_readBigUint; [exact Hnum | exact Hnuml]|]. cbv beta.
  eapply decodes_bind;
    [apply decodes_readBigUint; [lia | exact Hdenl]|]. cbv beta.
  eapply decodes_bind; [apply decodes_readU64; lia|]. cbv beta.
  eapply decodes_bind; [apply decodes_readU64; lia|]. cbv beta.
  eapply (decodes_peek_advance (readAt 1) _ 1 (encode_u8 (status o)));
    [ apply peeks_readAt; change (256 ^ Z.of_nat 1) with 256; lia
    | apply be_bytes_length |]. cbv beta.
  eapply decodes_bind; [apply decodes_readU64; lia|]. cbv beta.
  eapply (decodes_bind _ _ [] []);
    [apply decodes_toISOString; rewrite Hexact by lia; lia|]. cbv beta.
  eapply decodes_eq; [apply decodes_ret | reflexivity |].
  rewrite !string_of_list_byte_of_string, !Hexact by lia.
  destruct o; reflexivity.
Qed.

Lemma order20_well_formed : Contract.well_formed Samples.order20.
Proof.
  constructor; vm_compute; repeat split;
    solve [reflexivity | discriminate].
Defined.

(** C6, on an order whose expiry lies one second beyond the range of
    [Date] (8 640 000 000 000 s).  The order is well-formed and every
    field is read correctly, but the line that logs the decoded order
    formats the expiry with [toISOString], which throws on an invalid
    date; the [catch] of [getLimitOrder] turns that into [null].  One
    second earlier the same order is returned unchanged. *)
Theorem far_expiry_order_is_not_decoded :
  let reply o :=
    Ok {| returnData := Some [Contract.encode_order o];
          statusCode := None |} in
  Contract.well_formed (MoreSamples.order20_until 8640000000001)
  /\ ExecutorDecoder.getLimitOrder 20
       (reply (MoreSamples.order20_until 8640000000001))
     = None
  /\ ExecutorDecoder.getLimitOrder 20
       (reply (MoreSamples.order20_until 8640000000000))
     = Some (MoreSamples.order20_until 8640000000000).
Proof.
  cbv zeta. split; [|split; vm_compute; reflexivity].
  constructor; vm_compute; repeat split;
    solve [reflexivity | discriminate].
Qed.

(** X24.  The executor's decoder inverts the normative layout (order_id
    8 bytes, owner 32 bytes, five length-prefixed fields, slippage_bp 8
    bytes, expires_at 8 bytes, status 1 byte, created_at 8 bytes):
    querying a well-formed order by its id and decoding the contract's
    encoding of it returns every field of the order unchanged, provided
    the expiry is at most 8 640 000 000 000 s, the last second that
    [Date] can hold. *)
Theorem getLimitOrder_inverts_encoding
    (o : LimitOrder) (code : option Z) :
  Contract.well_formed o ->
  expires_at o <= 8640000000000 ->
  code <> Some 500 ->
  ExecutorDecoder.getLimitOrder (order_id o)
    (Ok {| returnData := Some [Contract.encode_order o];
           statusCode := code |})
  = Some o.
Proof.
  intros Hwf Hdate Hcode. unfold getLimitOrder. simpl.
  rewrite bool_decide_eq_false_2 by exact Hcode.
  rewrite (decodes_run _ _ _ (decodes_parseOrder o Hwf Hdate)). reflexivity.
Qed.

(** The order of scenario S1 survives the round trip. *)
Lemma getLimitOrder_inverts_encoding_witness :
  Contract.well_formed Samples.order20
  /\ ExecutorDecoder.getLimitOrder 20 Samples.order20_query
     = Some Samples.order20.
Proof.
  split.
  - exact order20_well_formed.
  - apply (getLimitOrder_inverts_encoding Samples.order20 None).
    + exact order20_well_formed.
    + vm_compute. discriminate.
    + discriminate.
Defined.

(** C10, on the encoding of order 20 (slippage 500 bp, expiry
    1 700 000 000).  The executor's decoder returns both values.  The
    frontend's decoder reads the first two of the eight slippage bytes,
    skips eight bytes and reads the next eight as the expiry: it returns
    slippage 0 and a timestamp outside the range of [Date]. *)
Theorem frontend_decoder_disagrees_with_executor :
  let encoded := Contract.encode_order Samples.order20 in
  option_map (fun o => (slippage_bp o, expires_at o))
    (ExecutorDecoder.getLimitOrder 20 Samples.order20_query)
  = Some (500, 1700000000)
  /\ map (fun o => (Frontend.slippageBp o, Frontend.expiresAt o))
       (Frontend.getUserPendingOrders Samples.alice
          (Ok {| Frontend.ok := true;
                 Frontend.returnCode := "ok";
                 Frontend.returnData := Some [encoded] |}))
     = [(0, Frontend.InvalidDate)]
  /\ Frontend.new_Date (1700000000 * 1000) = Frontend.DateMs 1700000000000.
Proof. vm_compute. repeat split; reflexivity. Qed.

End DecoderFacts.

(** ** The executor *)

Module ExecutorFacts.
Import Executor.

(** *** Comparison of doubles *)

Lemma pos_compare_cont_refl (m : positive) : Pos.compare_cont Eq m m = Eq.
Proof.
  change (Pos.compare_cont Eq m m) with (Pos.compare m m).
  apply Pos.compare_refl.
Qed.

(** Every number but NaN is at most itself. *)
Lemma leb_refl (x : Double.double) : x <> Double.NaN -> Double.leb x x = true.
Proof.
  intros Hx. unfold Double.leb, SFleb, SFcompare.
  destruct x as [s|s| |s m e]; try reflexivity.
  - destruct s; reflexivity.
  - exfalso. apply Hx. reflexivity.
  - destruct s; rewrite Z.compare_refl, pos_compare_cont_refl; reflexivity.
Qed.

Lemma truthy_not_NaN (x : Double.double) :
  Double.truthy x = true -> x <> Double.NaN.
Proof. intros H ->. discriminate. Qed.

(** *** The price conversion *)

Lemma fraction_denominator p fromDecimals toDecimals n d :
  PriceMath.executeOrder_fraction p fromDecimals toDecimals = Ok (n, d) ->
  d = 10 ^ PriceMath.PRECISION fromDecimals toDecimals.
Proof.
  unfold PriceMath.executeOrder_fraction.
  fold (PriceMath.PRECISION fromDecimals toDecimals).
  destruct (PriceMath.PRECISION fromDecimals toDecimals <? 0);
    [discriminate|].
  destruct (Double.floor _); [|discriminate].
  intros [= _ <-]. reflexivity.
Qed.

(** With the registry of the executor (6 or 18 decimals) the denominator
    is 10^3 or 10^6. *)
Lemma registry_denominator p (a b : string) n d :
  priceFraction p (getTokenDecimals a) (getTokenDecimals b) = Ok (n, d) ->
  d = 1000 \/ d = 1000000.
Proof.
  unfold priceFraction, getTokenDecimals.
  destruct (String.eqb a "USDC-c76f1f"), (String.eqb a "WEGLD-bd4d79"),
           (existsb (String.eqb a) Object_prototype),
           (String.eqb b "USDC-c76f1f"), (String.eqb b "WEGLD-bd4d79"),
           (existsb (String.eqb b) Object_prototype);
    try discriminate;
    intros H; apply fraction_denominator in H; rewrite H;
    vm_compute; auto.
Qed.

(** *** [executeOrder] *)

(** Whatever the polls answer, [executeOrder] hands over the same
    transactions and returns in the same way. *)
Lemma executeOrder_ignores_polls st orderId p fd td io polls' :
  executeOrder st orderId p fd td io
  = executeOrder st orderId p fd td
      {| account_nonce := account_nonce io;
         signature := signature io;
         sent := sent io;
         polls := polls' |}.
Proof.
  unfold executeOrder. simpl.
  destruct (executorAddress st); [|reflexivity].
  destruct (priceFraction p fd td) as [[n d]|];
    [|reflexivity].
  destruct (account_nonce io); [|reflexivity].
  destruct (signature io); [|reflexivity].
  destruct (sent io); reflexivity.
Qed.

(** With an initialised wallet, a price that converts, a nonce and a
    signature, [executeOrder] hands exactly one transaction for
    [orderId] to the provider. *)
Lemma executeOrder_submits st orderId p fd td io :
  executorAddress st <> None ->
  is_ok (priceFraction p fd td) = true ->
  is_ok (account_nonce io) = true ->
  is_ok (signature io) = true ->
  exists tx r,
    executeOrder st orderId p fd td io = ([tx], r)
    /\ tx_function tx = "executeLimitOrder"%string
    /\ tx_orderId tx = orderId.
Proof.
  intros Haddr Hconv Hacc Hsig. unfold executeOrder.
  destruct (executorAddress st) as [addr|]; [|contradiction].
  destruct (priceFraction p fd td) as [[num denom]|]; [|discriminate].
  destruct (account_nonce io) as [nonce|]; [|discriminate].
  destruct (signature io) as [[]|]; [|discriminate].
  destruct (sent io) as [h|e]; eexists; eexists;
    (split; [reflexivity | split; reflexivity]).
Qed.

(** *** Cooldown *)

Lemma not_on_cooldown st orderId t :
  (forall last, attemptedOrders st !! orderId = Some last ->
                cooldownPeriod st <= t - last) ->
  onCooldown st orderId t = false.
Proof.
  intros H. unfold onCooldown.
  destruct (attemptedOrders st !! orderId) as [last|]; [|reflexivity].
  specialize (H last eq_refl).
  destruct (Z.ltb_spec (t - last) (cooldownPeriod st)); [lia|].
  apply andb_false_r.
Qed.

(** An entry of the table younger than the cooldown blocks the order:
    no query, no transaction, no change of state. *)
Lemma cooldown_entry_blocks st orderId io last :
  attemptedOrders st !! orderId = Some last ->
  last <> 0 ->
  now io - last < cooldownPeriod st ->
  checkAndExecuteOrder st orderId io = (st, []).
Proof.
  intros Hlast Hnz Hlt. unfold checkAndExecuteOrder, onCooldown.
  rewrite Hlast.
  destruct (Z.eqb_spec last 0); [contradiction|].
  destruct (Z.ltb_spec (now io - last) (cooldownPeriod st)); [|lia].
  reflexivity.
Qed.

End ExecutorFacts.

(** ** The executor: trigger, expiry, cooldown *)

Module ExecutorClaims.
Import Executor ExecutorFacts.

Lemma unexpired_passes_check (t expires : Z) :
  t < expires * 1000 -> (t / 1000 >? expires) = false.
Proof.
  intros H. rewrite Z.gtb_ltb.
  destruct (Z.ltb_spec expires (t / 1000)) as [Hlt|]; [|reflexivity].
  assert (t / 1000 < expires) by (apply Z.div_lt_upper_bound; lia). lia.
Qed.

(** C1, as stated, fails: the comparison is not one of real numbers.
    For a pool of 10 USDC against 1 WEGLD the price obtained is the
    double nearest to 1/10, which is above 1/10; the target of order 21
    is 1/10, and the order is executed.  For a pool of 7 USDC against
    4.9 WEGLD the exact price is 7/10, the target of order 22, and
    nothing is submitted: the double obtained is 0.7000000000000001. *)
Lemma comparison_is_not_over_the_reals :
  let thin := MoreSamples.usdc_wegld "10000000" "1000000000000000000" in
  let even := MoreSamples.usdc_wegld "7000000" "4900000000000000000" in
  (exists p tx,
     getTokenPairPrice (Ok (Some [thin])) "USDC-c76f1f" "WEGLD-bd4d79"
     = Some p
     /\ (1 # 10 < Double.to_Q p)%Q
     /\ snd (checkAndExecuteOrder Samples.running 21
               (MoreSamples.look_at MoreSamples.order21 thin Samples.t0))
        = [tx])
  /\ ((4900000000000000000 # 1) / 10 ^ 18 / ((7000000 # 1) / 10 ^ 6)
      == 7 # 10)%Q
  /\ snd (checkAndExecuteOrder Samples.running 22
            (MoreSamples.look_at MoreSamples.order22 even Samples.t0))
     = [].
Proof.
  cbv zeta. split; [|split].
  - eexists. eexists. split; [vm_compute; reflexivity|].
    split; vm_compute; reflexivity.
  - vm_compute. reflexivity.
  - vm_compute. reflexivity.
Qed.

(** C1, amended.  For a fetched order that is not on cooldown and has
    not reached its expiry, and for which the pair query yielded a price
    [p] (a number other than zero and NaN), the executor compares [p]
    with the double-precision quotient [target] of target_num and
    target_denom, and hands an executeLimitOrder transaction for that
    order to the provider exactly when p ≤ target as doubles: it does so
    when p ≤ target, a tie of the two doubles included, and hands over
    nothing otherwise.  (The wallet is initialised, as [start] requires,
    the price converts to a fraction, and the nonce query and the
    signature succeed.) *)
Theorem trigger_iff_price_at_most_target
    (st : State) (orderId : Z) (io : OrderReplies)
    (o : LimitOrder) (p : Double.double) :
  executorAddress st <> None ->
  (forall last, attemptedOrders st !! orderId = Some last ->
                cooldownPeriod st <= now io - last) ->
  ExecutorDecoder.getLimitOrder orderId (orderQuery io) = Some o ->
  now io < expires_at o * 1000 ->
  getTokenPairPrice (pairsQuery io) (from_token o) (to_token o) = Some p ->
  Double.truthy p = true ->
  is_ok (priceFraction p (getTokenDecimals (from_token o))
           (getTokenDecimals (to_token o))) = true ->
  is_ok (account_nonce (exec io)) = true ->
  is_ok (signature (exec io)) = true ->
  let target :=
    Double.div (Double.of_Z (target_price_numerator o))
               (Double.of_Z (target_price_denominator o)) in
  let submitted := snd (checkAndExecuteOrder st orderId io) in
  (Double.leb p target = true ->
     exists tx, submitted = [tx]
                /\ tx_function tx = "executeLimitOrder"%string
                /\ tx_orderId tx = orderId)
  /\ (Double.leb p target = false -> submitted = [])
  /\ (submitted <> [] <-> Double.leb p target = true)
  /\ (p = target -> submitted <> []).
Proof.
  intros Haddr Hcool Hget Hexp Hprice Htruthy Hconv Hacc Hsig
         target submitted.
  assert (Hiff : submitted <> [] <-> Double.leb p target = true).
  { subst submitted. unfold checkAndExecuteOrder.
    rewrite (not_on_cooldown st orderId (now io) Hcool), Hget.
    rewrite (unexpired_passes_check _ _ Hexp), Hprice, Htruthy.
    cbn [negb]. unfold targetPrice. fold target.
    destruct (Double.leb p target) eqn:E.
    - destruct (executeOrder_submits
                  (with_attempted st
                     (<[orderId:=now io]> (attemptedOrders st)))
                  orderId p _ _ (exec io) Haddr Hconv Hacc Hsig)
        as (tx & r & -> & _ & _).
      destruct r; cbn [snd]; split; (reflexivity || discriminate).
    - cbn [snd]. split; [intros Hne; exfalso; apply Hne; reflexivity
                        | discriminate]. }
  assert (Hsub : Double.leb p target = true ->
                 exists tx, submitted = [tx]
                            /\ tx_function tx = "executeLimitOrder"%string
                            /\ tx_orderId tx = orderId).
  { intros E. subst submitted. unfold checkAndExecuteOrder.
    rewrite (not_on_cooldown st orderId (now io) Hcool), Hget.
    rewrite (unexpired_passes_check _ _ Hexp), Hprice, Htruthy.
    cbn [negb]. unfold targetPrice. fold target. rewrite E.
    destruct (executeOrder_submits
                (with_attempted st
                   (<[orderId:=now io]> (attemptedOrders st)))
                orderId p _ _ (exec io) Haddr Hconv Hacc Hsig)
      as (tx & r & -> & Hf & Hid).
    destruct r; cbn [snd]; exists tx; auto. }
  split; [exact Hsub|].
  split.
  - intros E. destruct submitted as [|tx txs] eqn:Es; [reflexivity|].
    assert (Hne : tx :: txs <> []) by discriminate.
    apply Hiff in Hne. congruence.
  - split; [exact Hiff|].
    intros Heq. apply Hiff. rewrite <- Heq.
    apply leb_refl, truthy_not_NaN, Htruthy.
Qed.

(** The pool of the samples quotes 0.15, below the target of order 20. *)
Lemma trigger_iff_price_at_most_target_witness :
  exists tx,
    snd (checkAndExecuteOrder Samples.running 20
           (Samples.look Samples.t0 (Ok Successful))) = [tx]
    /\ tx_function tx = "executeLimitOrder"%string
    /\ tx_orderId tx = 20.
Proof.
  refine (proj1 (trigger_iff_price_at_most_target
                   Samples.running 20
                   (Samples.look Samples.t0 (Ok Successful))
                   Samples.order20
                   (Double.div
                      (Double.div
                         (Double.parseFloat "150000000000000000000000")
                         (Double.pow10 18))
                      (Double.div (Double.parseFloat "1000000000000")
                         (Double.pow10 6)))
                   _ _ _ _ _ _ _ _ _) _).
  - discriminate.
  - intros last H. vm_compute in H. discriminate.
  - vm_compute. reflexivity.
  - vm_compute. reflexivity.
  - vm_compute. reflexivity.
  - vm_compute. reflexivity.
  - vm_compute. reflexivity.
  - reflexivity.
  - reflexivity.
  - vm_compute. reflexivity.
Defined.

(** *** Expiry *)

(** What the code does: an order is dropped once the current second is
    strictly past [expires_at]; then no price is fetched (the pair query
    is not looked at) and nothing is submitted. *)
Lemma order_past_expiry_is_dropped st orderId io o :
  onCooldown st orderId (now io) = false ->
  ExecutorDecoder.getLimitOrder orderId (orderQuery io) = Some o ->
  expires_at o < now io / 1000 ->
  checkAndExecuteOrder st orderId io
  = (with_attempted st (delete orderId (attemptedOrders st)), []).
Proof.
  intros Hc Hget Hexp. unfold checkAndExecuteOrder.
  rewrite Hc, Hget, Z.gtb_ltb.
  destruct (Z.ltb_spec (expires_at o) (now io / 1000)); [reflexivity|lia].
Qed.

(** C7, at the boundary.  When the clock reads exactly [expires_at]
    (here 1 700 000 000 s for order 20), the test
    [nowSeconds > order.expires_at] is false: the executor fetches the
    price and submits the transaction instead of dropping the order. *)
Theorem order_at_expiry_instant_is_executed :
  let io := Samples.look (expires_at Samples.order20 * 1000)
              (Ok Successful) in
  now io / 1000 = expires_at Samples.order20
  /\ map tx_orderId (snd (checkAndExecuteOrder Samples.running 20 io))
     = [20]
  /\ snd (checkAndExecuteOrder Samples.running 20
            (Samples.look (expires_at Samples.order20 * 1000 + 1000)
               (Ok Successful)))
     = [].
Proof. vm_compute. repeat split; reflexivity. Qed.

(** *** Cooldown and confirmation *)

(** The replies of the confirmation polls have no influence on the
    result of [checkAndExecuteOrder], cooldown table included. *)
Lemma confirmation_is_never_looked_at st orderId io polls' :
  checkAndExecuteOrder st orderId io
  = checkAndExecuteOrder st orderId
      {| now := now io;
         orderQuery := orderQuery io;
         pairsQuery := pairsQuery io;
         exec := {| account_nonce := account_nonce (exec io);
                    signature := signature (exec io);
                    sent := sent (exec io);
                    polls := polls' |} |}.
Proof.
  unfold checkAndExecuteOrder. cbn [now orderQuery pairsQuery exec].
  destruct (onCooldown st orderId (now io)); [reflexivity|].
  destruct (ExecutorDecoder.getLimitOrder orderId (orderQuery io)) as [o|];
    [|reflexivity].
  destruct (now io / 1000 >? expires_at o); [reflexivity|].
  destruct (getTokenPairPrice (pairsQuery io) (from_token o) (to_token o))
    as [p|]; [|reflexivity].
  destruct (negb (Double.truthy p)); [reflexivity|].
  destruct (Double.leb p _); [|reflexivity].
  rewrite (executeOrder_ignores_polls _ _ _ _ _ (exec io) polls').
  reflexivity.
Qed.

(** C4, on the failing paths.  The provider accepts the transaction for
    order 20; whether the polls then report a failed transaction, never
    report a final status (timeout), or throw, the transaction has been
    submitted and the cooldown entry of the order is gone, exactly as
    after a confirmed success. *)
Theorem cooldown_entry_removed_on_failure_and_timeout :
  let after status :=
    checkAndExecuteOrder Samples.running 20
      (Samples.look Samples.t0 status) in
  waitForTransaction (fun _ => Ok Failed) = LoggedFailed
  /\ map tx_orderId (snd (after (Ok Failed))) = [20]
  /\ attemptedOrders (fst (after (Ok Failed))) !! 20 = None
  /\ waitForTransaction (fun _ => Ok NotFinal) = LoggedPending
  /\ map tx_orderId (snd (after (Ok NotFinal))) = [20]
  /\ attemptedOrders (fst (after (Ok NotFinal))) !! 20 = None
  /\ attemptedOrders (fst (after (Throw NetworkError))) !! 20 = None
  /\ attemptedOrders (fst (after (Ok Successful))) !! 20 = None.
Proof. vm_compute. repeat split; reflexivity. Qed.

(** The entry stays only when [executeOrder] throws, that is when the
    transaction could not be handed over or was refused. *)
Example cooldown_entry_kept_when_send_is_refused :
  attemptedOrders
    (fst (checkAndExecuteOrder Samples.running 20
            {| now := Samples.t0;
               orderQuery := Samples.order20_query;
               pairsQuery := Ok (Some [Samples.pool]);
               exec := {| account_nonce := Ok 7;
                          signature := Ok tt;
                          sent := Throw NetworkError;
                          polls := fun _ => Ok NotFinal |} |})) !! 20
  = Some Samples.t0.
Proof. vm_compute. reflexivity. Qed.

(** C3, two sweeps 30 s apart.  Order 20 stays pending because its
    transaction fails on chain; the second sweep, well inside the 300 s
    cooldown window of the first attempt, submits a second transaction
    for it. *)
Theorem second_sweep_inside_cooldown_resubmits :
  let first :=
    checkAndExecuteOrders Samples.running
      (Samples.sweep Samples.t0 (Ok Failed)) in
  let second :=
    checkAndExecuteOrders (fst first)
      (Samples.sweep (Samples.t0 + 30000) (Ok Failed)) in
  (Samples.t0 + 30000) - Samples.t0 < cooldownPeriod Samples.running
  /\ map tx_orderId (snd first) = [20]
  /\ map tx_orderId (snd second) = [20].
Proof. vm_compute. repeat split; reflexivity. Qed.

End ExecutorClaims.

(** ** The backend process: sweep period and health endpoint *)

Module ServerFacts.
Import Server.

Lemma checkAndExecuteOrder_keeps_interval st orderId io :
  Executor.checkInterval (fst (Executor.checkAndExecuteOrder st orderId io))
  = Executor.checkInterval st.
Proof.
  unfold Executor.checkAndExecuteOrder.
  repeat match goal with
         | |- context [match ?x with _ => _ end] => destruct x
         end; reflexivity.
Qed.

Lemma sweepLoop_keeps_interval ids :
  forall st i replies,
    Executor.checkInterval (fst (Executor.sweepLoop st ids i replies))
    = Executor.checkInterval st.
Proof.
  induction ids as [|orderId rest IH]; intros st i replies; simpl;
    [reflexivity|].
  pose proof (checkAndExecuteOrder_keeps_interval st orderId (replies i))
    as H1.
  destruct (Executor.checkAndExecuteOrder st orderId (replies i))
    as [st1 txs1].
  pose proof (IH st1 (S i) replies) as H2.
  destruct (Executor.sweepLoop st1 rest (S i) replies) as [st2 txs2].
  simpl in *. congruence.
Qed.

Lemma checkAndExecuteOrders_keeps_interval st io :
  Executor.checkInterval (fst (Executor.checkAndExecuteOrders st io))
  = Executor.checkInterval st.
Proof.
  unfold Executor.checkAndExecuteOrders.
  destruct (negb (Executor.isRunning st)); [reflexivity|].
  apply sweepLoop_keeps_interval.
Qed.

(** What the code does: whatever the environment holds, a started
    executor sweeps every 30 000 ms. *)
Lemma sweep_period_is_hard_coded env pem firstSweep (delay : Z) :
  sweepTimer (boot env pem firstSweep) = Some delay -> delay = 30000.
Proof.
  unfold boot.
  destruct (enabled (LIMIT_ORDER_CONFIG env)); [|discriminate].
  destruct (pem (executorPemPath (LIMIT_ORDER_CONFIG env))) as [addr|e];
    simpl; [|discriminate].
  unfold Executor.start. simpl.
  pose proof (checkAndExecuteOrders_keeps_interval
                (Executor.with_running
                   (Executor.with_address Executor.new (Some addr)) true)
                firstSweep) as H.
  destruct (Executor.checkAndExecuteOrders _ firstSweep) as [st2 txs].
  simpl in *. intros [= Hd]. rewrite <- Hd. exact H.
Qed.

(** C8, with LIMIT_ORDER_CHECK_INTERVAL=10.  The configuration reads a
    sweep period of 10 s, and the default 30 s when the variable is not
    set; the executor that index.ts starts is never given the value and
    schedules its sweeps every 30 000 ms. *)
Theorem configured_sweep_period_is_ignored :
  let env : gmap string string :=
    <["LIMIT_ORDER_CHECK_INTERVAL" := "10"]>
      (<["ENABLE_LIMIT_ORDER_EXECUTOR" := "true"]> ∅) in
  let process :=
    boot env (fun _ => Ok "erd1executor")
      (Samples.sweep Samples.t0 (Ok Executor.Successful)) in
  checkIntervalSeconds (LIMIT_ORDER_CONFIG env) = Some 10
  /\ checkIntervalSeconds (LIMIT_ORDER_CONFIG ∅) = Some 30
  /\ Executor.isRunning (limitOrderExecutor process) = true
  /\ sweepTimer process = Some 30000.
Proof. vm_compute. repeat split; reflexivity. Qed.

(** C9, as stated, fails: the health body has no member [executor],
    the executor's entry is called [limitOrderExecutor]; and the
    [running] member of that entry is not the running flag. *)
Lemma health_has_no_executor_member :
  member "executor" (body (health ∅ Executor.new)) = None
  /\ exists executor,
       member "limitOrderExecutor" (body (health ∅ Executor.new))
       = Some executor
       /\ member "running" executor
          <> Some (JBool (Executor.isRunning Executor.new)).
Proof.
  split; [reflexivity|].
  eexists. split; [reflexivity|]. vm_compute. discriminate.
Qed.

(** C9, amended.  [GET /health] always answers 200 with a body of the
    members status, service and limitOrderExecutor; the latter has the
    members enabled and running, and enabled is the configured enabled
    flag of the executor. *)
Theorem health_body_shape
    (env : gmap string string) (st : Executor.State) :
  let response := health env st in
  httpStatus response = 200
  /\ keys (body response) = ["status"; "service"; "limitOrderExecutor"]%string
  /\ exists executor,
       member "limitOrderExecutor" (body response) = Some executor
       /\ keys executor = ["enabled"; "running"]%string
       /\ member "enabled" executor
          = Some (JBool (enabled (LIMIT_ORDER_CONFIG env))).
Proof.
  cbv zeta. split; [reflexivity|]. split; [reflexivity|].
  eexists. repeat split; reflexivity.
Qed.

End ServerFacts.

(** * Further properties of the executor *)

Module ExecutorExtras.
Import Executor ExecutorFacts.

(** ** Confirmation polling *)

Lemma waitLoop_spec (replies : nat -> result TxStatus) (remaining : nat) :
  forall i,
    match waitLoop replies i remaining with
    | LoggedPending =>
        forall j, (i <= j < i + remaining)%nat ->
                  replies j <> Ok Successful /\ replies j <> Ok Failed
    | LoggedSuccessful =>
        exists j, (i <= j < i + remaining)%nat
                  /\ replies j = Ok Successful
                  /\ forall k, (i <= k < j)%nat ->
                               replies k <> Ok Successful
                               /\ replies k <> Ok Failed
    | LoggedFailed =>
        exists j, (i <= j < i + remaining)%nat
                  /\ replies j = Ok Failed
                  /\ forall k, (i <= k < j)%nat ->
                               replies k <> Ok Successful
                               /\ replies k <> Ok Failed
    end.
Proof.
  induction remaining as [|n IH]; intros i; cbn [waitLoop].
  - intros j Hj. lia.
  - destruct (replies i) as [[| |]|e] eqn:Hi.
    + exists i. split; [lia|]. split; [exact Hi|]. intros k Hk. lia.
    + exists i. split; [lia|]. split; [exact Hi|]. intros k Hk. lia.
    + specialize (IH (S i)).
      destruct (waitLoop replies (S i) n).
      * destruct IH as (j & Hj & Hr & Hbefore).
        exists j. split; [lia|]. split; [exact Hr|].
        intros k Hk. destruct (Nat.eq_dec k i) as [->|Hne].
        -- rewrite Hi. split; discriminate.
        -- apply Hbefore. lia.
      * destruct IH as (j & Hj & Hr & Hbefore).
        exists j. split; [lia|]. split; [exact Hr|].
        intros k Hk. destruct (Nat.eq_dec k i) as [->|Hne].
        -- rewrite Hi. split; discriminate.
        -- apply Hbefore. lia.
      * intros j Hj. destruct (Nat.eq_dec j i) as [->|Hne].
        -- rewrite Hi. split; discriminate.
        -- apply IH. lia.
    + specialize (IH (S i)).
      destruct (waitLoop replies (S i) n).
      * destruct IH as (j & Hj & Hr & Hbefore).
        exists j. split; [lia|]. split; [exact Hr|].
        intros k Hk. destruct (Nat.eq_dec k i) as [->|Hne].
        -- rewrite Hi. split; discriminate.
        -- apply Hbefore. lia.
      * destruct IH as (j & Hj & Hr & Hbefore).
        exists j. split; [lia|]. split; [exact Hr|].
        intros k Hk. destruct (Nat.eq_dec k i) as [->|Hne].
        -- rewrite Hi. split; discriminate.
        -- apply Hbefore. lia.
      * intros j Hj. destruct (Nat.eq_dec j i) as [->|Hne].
        -- rewrite Hi. split; discriminate.
        -- apply IH. lia.
Qed.

(** X1.  [waitForTransaction] looks at no more than the first 20 polls
    and stops at the first final status: it logs success (failure) exactly
    when the first poll among those 20 that reports a final status reports
    success (failure), polls that throw or report a pending status being
    passed over, and it logs "pending" exactly when none of the 20 polls
    reports a final status. *)
Theorem waitForTransaction_first_final_status
    (replies : nat -> result TxStatus) :
  match waitForTransaction replies with
  | LoggedPending =>
      forall j, (j < 20)%nat ->
                replies j <> Ok Successful /\ replies j <> Ok Failed
  | LoggedSuccessful =>
      exists j, (j < 20)%nat
                /\ replies j = Ok Successful
                /\ forall k, (k < j)%nat ->
                             replies k <> Ok Successful
                             /\ replies k <> Ok Failed
  | LoggedFailed =>
      exists j, (j < 20)%nat
                /\ replies j = Ok Failed
                /\ forall k, (k < j)%nat ->
                             replies k <> Ok Successful
                             /\ replies k <> Ok Failed
  end.
Proof.
  unfold waitForTransaction.
  pose proof (waitLoop_spec replies 20 0) as H.
  destruct (waitLoop replies 0 20).
  - destruct H as (j & Hj & Hr & Hb). exists j.
    split; [lia|]. split; [exact Hr|]. intros k Hk. apply Hb. lia.
  - destruct H as (j & Hj & Hr & Hb). exists j.
    split; [lia|]. split; [exact Hr|]. intros k Hk. apply Hb. lia.
  - intros j Hj. apply H. lia.
Qed.


(** ** What one look at an order, and one sweep, can do *)

(** The three ways [checkAndExecuteOrder] can end. *)
Lemma checkAndExecuteOrder_cases st orderId io :
  checkAndExecuteOrder st orderId io = (st, [])
  \/ checkAndExecuteOrder st orderId io
     = (with_attempted st (delete orderId (attemptedOrders st)), [])
  \/ exists o p txs r,
       let st1 :=
         with_attempted st (<[orderId := now io]> (attemptedOrders st)) in
       ExecutorDecoder.getLimitOrder orderId (orderQuery io) = Some o
       /\ executeOrder st1 orderId p
            (getTokenDecimals (from_token o)) (getTokenDecimals (to_token o))
            (exec io) = (txs, r)
       /\ checkAndExecuteOrder st orderId io
          = (match r with
             | Ok _ => with_attempted st1 (delete orderId (attemptedOrders st1))
             | Throw _ => st1
             end, txs).
Proof.
  unfold checkAndExecuteOrder.
  destruct (onCooldown st orderId (now io)); [left; reflexivity|].
  destruct (ExecutorDecoder.getLimitOrder orderId (orderQuery io)) as [o|];
    [|right; left; reflexivity].
  destruct (now io / 1000 >? expires_at o); [right; left; reflexivity|].
  destruct (getTokenPairPrice (pairsQuery io) (from_token o) (to_token o))
    as [p|]; [|left; reflexivity].
  destruct (negb (Double.truthy p)); [left; reflexivity|].
  destruct (Double.leb p _); [|left; reflexivity].
  right; right.
  destruct (executeOrder _ orderId p _ _ (exec io)) as [txs r] eqn:E.
  exists o, p, txs, r. cbv zeta.
  split; [reflexivity|]. split; [exact E|].
  destruct r; reflexivity.
Qed.

(** [executeOrder] hands over nothing or one well-formed transaction. *)
Lemma executeOrder_transactions st orderId p (a b : string) io txs r :
  executeOrder st orderId p (getTokenDecimals a) (getTokenDecimals b) io
  = (txs, r) ->
  txs = []
  \/ exists tx,
       txs = [tx]
       /\ tx_function tx = "executeLimitOrder"%string
       /\ tx_orderId tx = orderId
       /\ tx_gasLimit tx = 80000000
       /\ (tx_denominator tx = 1000 \/ tx_denominator tx = 1000000).
Proof.
  unfold executeOrder.
  destruct (executorAddress st); [|intros [= <- _]; left; reflexivity].
  pose proof (registry_denominator p a b) as Hden.
  destruct (priceFraction p _ _) as [[n d]|e];
    [|intros [= <- _]; left; reflexivity].
  specialize (Hden n d eq_refl).
  destruct (account_nonce io); [|intros [= <- _]; left; reflexivity].
  destruct (signature io); [|intros [= <- _]; left; reflexivity].
  destruct (sent io); intros [= <- _]; right; eexists;
    (split; [reflexivity|]); simpl; auto.
Qed.

Lemma checkAndExecuteOrder_effect
    (st : State) (orderId : Z) (io : OrderReplies) :
  let st' := fst (checkAndExecuteOrder st orderId io) in
  let txs := snd (checkAndExecuteOrder st orderId io) in
  executorAddress st' = executorAddress st
  /\ isRunning st' = isRunning st
  /\ checkInterval st' = checkInterval st
  /\ cooldownPeriod st' = cooldownPeriod st
  /\ (txs = []
      \/ exists tx,
           txs = [tx]
           /\ tx_function tx = "executeLimitOrder"%string
           /\ tx_orderId tx = orderId
           /\ tx_gasLimit tx = 80000000
           /\ (tx_denominator tx = 1000 \/ tx_denominator tx = 1000000)).
Proof.
  cbv zeta.
  destruct (checkAndExecuteOrder_cases st orderId io)
    as [-> | [-> | (o & p & txs & r & _ & Hexec & ->)]].
  - repeat split; auto.
  - repeat split; auto.
  - apply executeOrder_transactions in Hexec.
    destruct r; cbn [fst snd]; repeat split; auto.
Qed.

(** X2.  One look at an order changes nothing of the executor but its
    cooldown table, and hands the provider either nothing or exactly one
    transaction: a call of executeLimitOrder for that very order, with a
    gas limit of 80 000 000 and a price denominator of 1000 or
    1 000 000. *)
Theorem checkAndExecuteOrder_footprint
    (st : State) (orderId : Z) (io : OrderReplies) :
  let st' := fst (checkAndExecuteOrder st orderId io) in
  let txs := snd (checkAndExecuteOrder st orderId io) in
  executorAddress st' = executorAddress st
  /\ isRunning st' = isRunning st
  /\ checkInterval st' = checkInterval st
  /\ cooldownPeriod st' = cooldownPeriod st
  /\ (txs = []
      \/ exists tx,
           txs = [tx]
           /\ tx_function tx = "executeLimitOrder"%string
           /\ tx_orderId tx = orderId
           /\ tx_gasLimit tx = 80000000
           /\ (tx_denominator tx = 1000 \/ tx_denominator tx = 1000000)).
Proof. exact (checkAndExecuteOrder_effect st orderId io). Qed.

Lemma sweepLoop_footprint (ids : list Z) :
  forall st i replies,
    let st' := fst (sweepLoop st ids i replies) in
    let txs := snd (sweepLoop st ids i replies) in
    executorAddress st' = executorAddress st
    /\ isRunning st' = isRunning st
    /\ checkInterval st' = checkInterval st
    /\ cooldownPeriod st' = cooldownPeriod st
    /\ (length txs <= length ids)%nat
    /\ Forall (fun tx =>
                 tx_function tx = "executeLimitOrder"%string
                 /\ In (tx_orderId tx) ids
                 /\ tx_gasLimit tx = 80000000
                 /\ (tx_denominator tx = 1000
                     \/ tx_denominator tx = 1000000)) txs.
Proof.
  induction ids as [|orderId rest IH]; intros st i replies; cbv zeta.
  - simpl. repeat split; auto.
  - cbn [sweepLoop].
    pose proof (checkAndExecuteOrder_effect st orderId (replies i)) as H1.
    destruct (checkAndExecuteOrder st orderId (replies i)) as [st1 txs1].
    pose proof (IH st1 (S i) replies) as H2.
    destruct (sweepLoop st1 rest (S i) replies) as [st2 txs2].
    cbv zeta in H1, H2. cbn [fst snd] in *.
    destruct H1 as (A1 & R1 & C1 & P1 & T1).
    destruct H2 as (A2 & R2 & C2 & P2 & L2 & F2).
    split; [congruence|]. split; [congruence|].
    split; [congruence|]. split; [congruence|].
    split.
    + rewrite length_app. simpl.
      destruct T1 as [-> | (tx & -> & _)]; simpl; lia.
    + apply Forall_app. split.
      * destruct T1 as [-> | (tx & -> & Hf & Hid & Hg & Hd)];
          [constructor|].
        constructor; [|constructor].
        repeat split; auto. left. symmetry. exact Hid.
      * eapply Forall_impl; [exact F2|].
        intros tx (Hf & Hin & Hg & Hd). repeat split; auto.
        right. exact Hin.
Qed.

Lemma sweep_keeps_configuration (st : State) (io : SweepReplies) :
  executorAddress (fst (checkAndExecuteOrders st io)) = executorAddress st
  /\ isRunning (fst (checkAndExecuteOrders st io)) = isRunning st
  /\ checkInterval (fst (checkAndExecuteOrders st io)) = checkInterval st
  /\ cooldownPeriod (fst (checkAndExecuteOrders st io)) = cooldownPeriod st.
Proof.
  unfold checkAndExecuteOrders.
  destruct (negb (isRunning st)); [repeat split; reflexivity|].
  pose proof (sweepLoop_footprint (getPendingOrders (pendingQuery io))
                st 0%nat (orderReplies io)) as H.
  cbv zeta in H. destruct H as (A & R & C & P & _).
  repeat split; assumption.
Qed.

(** X3.  A sweep changes nothing of the executor but its cooldown table
    (wallet, running flag, sweep period and cooldown period stay), submits
    at most one transaction per entry of the pending list, and every
    transaction it submits is an executeLimitOrder call, with a gas limit
    of 80 000 000, for an order id that the pending query returned. *)
Theorem sweep_footprint (st : State) (io : SweepReplies) :
  let st' := fst (checkAndExecuteOrders st io) in
  let txs := snd (checkAndExecuteOrders st io) in
  let pending := getPendingOrders (pendingQuery io) in
  executorAddress st' = executorAddress st
  /\ isRunning st' = isRunning st
  /\ checkInterval st' = checkInterval st
  /\ cooldownPeriod st' = cooldownPeriod st
  /\ (length txs <= length pending)%nat
  /\ Forall (fun tx =>
               tx_function tx = "executeLimitOrder"%string
               /\ In (tx_orderId tx) pending
               /\ tx_gasLimit tx = 80000000
               /\ (tx_denominator tx = 1000
                   \/ tx_denominator tx = 1000000)) txs.
Proof.
  cbv zeta. unfold checkAndExecuteOrders.
  destruct (negb (isRunning st)).
  - simpl. repeat split; auto. lia.
  - apply sweepLoop_footprint.
Qed.

(** A stopped executor does nothing: after [stop], a sweep that the
    timer still triggers submits no transaction and leaves the state,
    cooldown table included, as it is. *)
Lemma stopped_executor_sweeps_nothing (st : State) (io : SweepReplies) :
  checkAndExecuteOrders (stop st) io = (stop st, [])
  /\ attemptedOrders (stop st) = attemptedOrders st
  /\ isRunning (stop st) = false.
Proof. repeat split; reflexivity. Qed.


(** ** Cooldown *)

Lemma sweepLoop_all_on_cooldown (ids : list Z) :
  forall st i replies,
    (forall j id,
        ids !! j = Some id ->
        exists last,
          attemptedOrders st !! id = Some last
          /\ last <> 0
          /\ now (replies (i + j)%nat) - last < cooldownPeriod st) ->
    sweepLoop st ids i replies = (st, []).
Proof.
  induction ids as [|orderId rest IH]; intros st i replies H;
    [reflexivity|].
  cbn [sweepLoop].
  destruct (H 0%nat orderId eq_refl) as (last & Hl & Hnz & Hlt).
  rewrite Nat.add_0_r in Hlt.
  rewrite (cooldown_entry_blocks st orderId (replies i) last Hl Hnz Hlt).
  rewrite (IH st (S i) replies); [reflexivity|].
  intros j id Hj. specialize (H (S j) id Hj).
  replace (S i + j)%nat with (i + S j)%nat by lia. exact H.
Qed.

(** X4.  Orders on cooldown are skipped.  If every order of the pending
    list has a cooldown entry (other than 0) whose age, at the time the
    order is looked at, is below the cooldown period, the sweep submits
    nothing and leaves the executor as it was. *)
Theorem sweep_skips_orders_on_cooldown (st : State) (io : SweepReplies) :
  (forall j id,
      getPendingOrders (pendingQuery io) !! j = Some id ->
      exists last,
        attemptedOrders st !! id = Some last
        /\ last <> 0
        /\ now (orderReplies io j) - last < cooldownPeriod st) ->
  checkAndExecuteOrders st io = (st, []).
Proof.
  intros H. unfold checkAndExecuteOrders.
  destruct (negb (isRunning st)); [reflexivity|].
  apply sweepLoop_all_on_cooldown. intros j id Hj. simpl. apply H, Hj.
Qed.

Lemma sweep_skips_orders_on_cooldown_witness :
  checkAndExecuteOrders MoreSamples.cooling
    (Samples.sweep (Samples.t0 + 30000) (Ok Successful))
  = (MoreSamples.cooling, []).
Proof.
  apply sweep_skips_orders_on_cooldown.
  intros j id Hj. exists Samples.t0.
  destruct j as [|j]; vm_compute in Hj; [|discriminate].
  injection Hj as <-.
  split; [vm_compute; reflexivity|].
  split; [discriminate|]. vm_compute. reflexivity.
Defined.

(** X5.  Nothing is recorded unless the trigger fires.  For a fetched
    order that is off cooldown and not past its expiry, if no usable
    price was obtained (request failed, no such pair, a zero or
    unreadable reserve, a quotient that is zero or NaN) or the price is
    not at or below the order's target, the double-precision quotient of
    target_num and target_denom, the call submits nothing and leaves the
    executor, cooldown table included, exactly as it was. *)
Theorem untriggered_order_leaves_no_trace
    (st : State) (orderId : Z) (io : OrderReplies) (o : LimitOrder) :
  onCooldown st orderId (now io) = false ->
  ExecutorDecoder.getLimitOrder orderId (orderQuery io) = Some o ->
  now io / 1000 <= expires_at o ->
  (forall p,
      getTokenPairPrice (pairsQuery io) (from_token o) (to_token o) = Some p ->
      Double.truthy p = true ->
      Double.leb p (targetPrice o) = false) ->
  checkAndExecuteOrder st orderId io = (st, []).
Proof.
  intros Hc Hget Hexp Hprice. unfold checkAndExecuteOrder.
  rewrite Hc, Hget, Z.gtb_ltb.
  destruct (Z.ltb_spec (expires_at o) (now io / 1000)); [lia|].
  destruct (getTokenPairPrice (pairsQuery io) (from_token o) (to_token o))
    as [p|]; [|reflexivity].
  specialize (Hprice p eq_refl).
  destruct (Double.truthy p); cbn [negb]; [|reflexivity].
  rewrite (Hprice eq_refl). reflexivity.
Qed.

(** Order 21 asks for 1/10 while the pool quotes 0.15. *)
Lemma untriggered_order_leaves_no_trace_witness :
  checkAndExecuteOrder Samples.running 21 (MoreSamples.look21 Samples.t0)
  = (Samples.running, []).
Proof.
  apply (untriggered_order_leaves_no_trace Samples.running 21
           (MoreSamples.look21 Samples.t0) MoreSamples.order21).
  - vm_compute. reflexivity.
  - vm_compute. reflexivity.
  - vm_compute. discriminate.
  - intros p Hp _. vm_compute in Hp. injection Hp as <-.
    vm_compute. reflexivity.
Defined.

(** X6.  An order that is gone or past its expiry is forgotten.  Off
    cooldown, when the [getOrder] query yields no order, or yields one
    whose [expires_at] lies strictly before the current second, the call
    removes the order's cooldown entry, touches no other entry and submits
    nothing. *)
Theorem vanished_or_expired_order_is_forgotten
    (st : State) (orderId : Z) (io : OrderReplies) :
  onCooldown st orderId (now io) = false ->
  (ExecutorDecoder.getLimitOrder orderId (orderQuery io) = None
   \/ exists o,
        ExecutorDecoder.getLimitOrder orderId (orderQuery io) = Some o
        /\ expires_at o < now io / 1000) ->
  snd (checkAndExecuteOrder st orderId io) = []
  /\ attemptedOrders (fst (checkAndExecuteOrder st orderId io)) !! orderId
     = None
  /\ forall other,
       other <> orderId ->
       attemptedOrders (fst (checkAndExecuteOrder st orderId io)) !! other
       = attemptedOrders st !! other.
Proof.
  intros Hc Hgone.
  assert (E : checkAndExecuteOrder st orderId io
              = (with_attempted st (delete orderId (attemptedOrders st)), [])).
  { unfold checkAndExecuteOrder. rewrite Hc.
    destruct Hgone as [-> | (o & -> & Hexp)]; [reflexivity|].
    rewrite Z.gtb_ltb.
    destruct (Z.ltb_spec (expires_at o) (now io / 1000)); [reflexivity|lia]. }
  rewrite E. cbn [fst snd with_attempted attemptedOrders].
  split; [reflexivity|]. split; [apply lookup_delete_eq|].
  intros other Hne. apply lookup_delete_ne. congruence.
Qed.

Lemma vanished_or_expired_order_is_forgotten_witness :
  snd (checkAndExecuteOrder MoreSamples.cooling 20
         (MoreSamples.look_missing (Samples.t0 + 300000))) = []
  /\ attemptedOrders
       (fst (checkAndExecuteOrder MoreSamples.cooling 20
               (MoreSamples.look_missing (Samples.t0 + 300000)))) !! 20
     = None.
Proof.
  pose proof (vanished_or_expired_order_is_forgotten MoreSamples.cooling 20
                (MoreSamples.look_missing (Samples.t0 + 300000))) as H.
  destruct H as (H1 & H2 & _).
  - vm_compute. reflexivity.
  - left. vm_compute. reflexivity.
  - split; [exact H1 | exact H2].
Defined.


(** X7.  Every time in the cooldown table is the time of an attempt:
    after one look at an order, an entry of the table either was there
    before with the same time, or belongs to the order just looked at and
    holds the [Date.now()] of this look. *)
Theorem cooldown_entries_are_attempt_times
    (st : State) (orderId : Z) (io : OrderReplies) (other t : Z) :
  attemptedOrders (fst (checkAndExecuteOrder st orderId io)) !! other
  = Some t ->
  attemptedOrders st !! other = Some t
  \/ (other = orderId /\ t = now io).
Proof.
  destruct (checkAndExecuteOrder_cases st orderId io)
    as [-> | [-> | (o & p & txs & r & _ & _ & ->)]];
    cbn [fst with_attempted attemptedOrders].
  - auto.
  - intros H. left.
    destruct (decide (other = orderId)) as [->|Hne].
    + rewrite lookup_delete_eq in H. discriminate.
    + rewrite lookup_delete_ne in H by congruence. exact H.
  - destruct r as [u|e]; cbn [with_attempted attemptedOrders]; intros H.
    + left. destruct (decide (other = orderId)) as [->|Hne].
      * rewrite lookup_delete_eq in H. discriminate.
      * rewrite lookup_delete_ne, lookup_insert_ne in H by congruence.
        exact H.
    + destruct (decide (other = orderId)) as [->|Hne].
      * rewrite lookup_insert_eq in H. right. split; congruence.
      * rewrite lookup_insert_ne in H by congruence. left. exact H.
Qed.

Lemma cooldown_entries_are_attempt_times_witness :
  attemptedOrders MoreSamples.cooling !! 20 = Some Samples.t0
  \/ (20 = 21 /\ Samples.t0 = now (MoreSamples.look21 (Samples.t0 + 1000))).
Proof.
  apply (cooldown_entries_are_attempt_times MoreSamples.cooling 21
           (MoreSamples.look21 (Samples.t0 + 1000)) 20 Samples.t0).
  vm_compute. reflexivity.
Defined.

(** X8.  What a triggered attempt leaves behind.  For a fetched order,
    off cooldown and not past its expiry, whose price (a number other
    than zero and NaN) is at or below the target as doubles: after the
    call the order's cooldown entry is absent when the conversion of the
    price to a fraction, the nonce query, the signature and
    [sendTransaction] all succeeded, and holds the time of the attempt
    when one of them failed, whatever the confirmation polls answer; the
    entries of all other orders are untouched. *)
Theorem triggered_attempt_aftermath
    (st : State) (orderId : Z) (io : OrderReplies)
    (o : LimitOrder) (p : Double.double) :
  executorAddress st <> None ->
  onCooldown st orderId (now io) = false ->
  ExecutorDecoder.getLimitOrder orderId (orderQuery io) = Some o ->
  now io / 1000 <= expires_at o ->
  getTokenPairPrice (pairsQuery io) (from_token o) (to_token o) = Some p ->
  Double.truthy p = true ->
  Double.leb p (targetPrice o) = true ->
  let st' := fst (checkAndExecuteOrder st orderId io) in
  attemptedOrders st' !! orderId
  = (if is_ok (priceFraction p (getTokenDecimals (from_token o))
                 (getTokenDecimals (to_token o)))
        && is_ok (account_nonce (exec io)) && is_ok (signature (exec io))
        && is_ok (sent (exec io))
     then None else Some (now io))
  /\ forall other,
       other <> orderId ->
       attemptedOrders st' !! other = attemptedOrders st !! other.
Proof.
  intros Haddr Hc Hget Hexp Hprice Htruthy Hle. cbv zeta.
  unfold checkAndExecuteOrder.
  rewrite Hc, Hget, Z.gtb_ltb.
  destruct (Z.ltb_spec (expires_at o) (now io / 1000)); [lia|].
  rewrite Hprice, Htruthy. cbn [negb]. rewrite Hle.
  unfold executeOrder. cbn [with_attempted executorAddress].
  destruct (executorAddress st) as [addr|]; [|contradiction].
  destruct (priceFraction p _ _) as [[num denom]|e0];
    [destruct (account_nonce (exec io)) as [nonce|e1];
     [destruct (signature (exec io)) as [[]|e2];
      [destruct (sent (exec io)) as [h|e3]|]|]|];
    cbn [is_ok andb fst with_attempted attemptedOrders].
  - split; [apply lookup_delete_eq|].
    intros other Hne.
    rewrite lookup_delete_ne, lookup_insert_ne by congruence. reflexivity.
  - split; [apply lookup_insert_eq|].
    intros other Hne. rewrite lookup_insert_ne by congruence. reflexivity.
  - split; [apply lookup_insert_eq|].
    intros other Hne. rewrite lookup_insert_ne by congruence. reflexivity.
  - split; [apply lookup_insert_eq|].
    intros other Hne. rewrite lookup_insert_ne by congruence. reflexivity.
  - split; [apply lookup_insert_eq|].
    intros other Hne. rewrite lookup_insert_ne by congruence. reflexivity.
Qed.

Lemma triggered_attempt_aftermath_witness :
  attemptedOrders
    (fst (checkAndExecuteOrder Samples.running 20
            (Samples.look Samples.t0 (Ok Failed)))) !! 20
  = None.
Proof.
  refine (proj1 (triggered_attempt_aftermath Samples.running 20
                   (Samples.look Samples.t0 (Ok Failed))
                   Samples.order20
                   (Double.div
                      (Double.div
                         (Double.parseFloat "150000000000000000000000")
                         (Double.pow10 18))
                      (Double.div (Double.parseFloat "1000000000000")
                         (Double.pow10 6)))
                   _ _ _ _ _ _ _)).
  - discriminate.
  - vm_compute. reflexivity.
  - vm_compute. reflexivity.
  - vm_compute. discriminate.
  - vm_compute. reflexivity.
  - vm_compute. reflexivity.
  - vm_compute. reflexivity.
Defined.

(** X9.  Operator intervention.  [clearOrderCooldown] takes the given
    order off cooldown and changes the cooldown state of no other order;
    [clearAllCooldowns] takes every order off cooldown.  Neither changes
    the running flag. *)
Theorem clearing_cooldowns (st : State) (orderId other t : Z) :
  onCooldown (clearOrderCooldown st orderId) orderId t = false
  /\ (other <> orderId ->
      onCooldown (clearOrderCooldown st orderId) other t
      = onCooldown st other t)
  /\ onCooldown (clearAllCooldowns st) other t = false
  /\ isRunning (clearOrderCooldown st orderId) = isRunning st
  /\ isRunning (clearAllCooldowns st) = isRunning st.
Proof.
  unfold onCooldown, clearOrderCooldown, clearAllCooldowns.
  cbn [with_attempted attemptedOrders cooldownPeriod isRunning].
  split; [rewrite lookup_delete_eq; reflexivity|].
  split; [intros Hne; rewrite lookup_delete_ne by congruence; reflexivity|].
  split; [rewrite lookup_empty; reflexivity|].
  split; reflexivity.
Qed.

Lemma clearing_cooldowns_witness :
  onCooldown MoreSamples.cooling 20 (Samples.t0 + 1000) = true
  /\ onCooldown (clearOrderCooldown MoreSamples.cooling 20) 20
       (Samples.t0 + 1000) = false
  /\ onCooldown (clearOrderCooldown MoreSamples.cooling 21) 20
       (Samples.t0 + 1000) = true.
Proof.
  split; [vm_compute; reflexivity|].
  split.
  - exact (proj1 (clearing_cooldowns MoreSamples.cooling 20 20
                    (Samples.t0 + 1000))).
  - rewrite (proj1 (proj2 (clearing_cooldowns MoreSamples.cooling 21 20
                             (Samples.t0 + 1000)))).
    + vm_compute. reflexivity.
    + discriminate.
Defined.


(** ** Prices of a pair *)





(** The two prices of a pair need not multiply to 1: for 3 USDC against
    11 WEGLD they are 3.6666666666666665 and 0.2727272727272727, whose
    product in doubles is 0.9999999999999999. *)
Example inverse_prices_need_not_multiply_to_one :
  let pool := MoreSamples.usdc_wegld "3000000" "11000000000000000000" in
  exists p q,
    getTokenPairPrice (Ok (Some [pool])) "USDC-c76f1f" "WEGLD-bd4d79"
    = Some p
    /\ getTokenPairPrice (Ok (Some [pool])) "WEGLD-bd4d79" "USDC-c76f1f"
       = Some q
    /\ Double.mul p q <> Double.of_Z 1.
Proof.
  cbv zeta. eexists. eexists.
  split; [vm_compute; reflexivity|].
  split; [vm_compute; reflexivity|].
  vm_compute. discriminate.
Qed.

(** ** The pending list *)

Lemma pending_entry_id (o : LimitOrder) :
  0 <= order_id o < 2 ^ 53 ->
  match Contract.encode_order o with
  | [] => []
  | _ :: _ =>
      [JsNum.of_bigint (Buf.be_value (firstn 8 (Contract.encode_order o)))]
  end = [order_id o].
Proof.
  intros Ho.
  assert (Hlen : length (Buf.be_bytes 8 (order_id o)) = 8%nat)
    by apply BufFacts.be_bytes_length.
  assert (E : exists rest,
             Contract.encode_order o = Buf.be_bytes 8 (order_id o) ++ rest)
    by (eexists; reflexivity).
  destruct E as [rest E]. rewrite E.
  destruct (Buf.be_bytes 8 (order_id o) ++ rest) as [|b0 tl] eqn:E'.
  { apply (f_equal (@length byte)) in E'.
    rewrite length_app, Hlen in E'. simpl in E'. lia. }
  rewrite <- E'. rewrite <- Hlen at 1. rewrite take_app_length.
  rewrite BufFacts.be_value_be_bytes
    by (change (256 ^ Z.of_nat 8) with (2 ^ 64);
        assert (2 ^ 53 < 2 ^ 64) by reflexivity; lia).
  unfold JsNum.of_bigint.
  destruct (Z.ltb_spec (order_id o) (2 ^ 53)); [reflexivity|lia].
Qed.

(** X11.  [getPendingOrders] recovers the order ids from the contract's
    reply: given the encodings of any orders whose ids are below 2^53, it
    returns exactly their ids, in order.  (The id is read from the first
    eight bytes of each entry; nothing else of the entry is looked at.) *)
Theorem getPendingOrders_recovers_ids (orders : list LimitOrder) :
  Forall (fun o => 0 <= order_id o < 2 ^ 53) orders ->
  getPendingOrders (Ok (Some (map Contract.encode_order orders)))
  = map order_id orders.
Proof.
  intros H. unfold getPendingOrders.
  induction H as [|o rest Ho _ IH]; [reflexivity|].
  cbn [map flat_map]. rewrite IH, (pending_entry_id o Ho). reflexivity.
Qed.

Lemma getPendingOrders_recovers_ids_witness :
  getPendingOrders
    (Ok (Some (map Contract.encode_order
                 [Samples.order20; MoreSamples.order21])))
  = [20; 21].
Proof.
  apply (getPendingOrders_recovers_ids
           [Samples.order20; MoreSamples.order21]).
  repeat constructor; vm_compute; discriminate.
Defined.

End ExecutorExtras.

(** * Further properties of the decoders *)

Module DecoderExtras.
Import Buf BufFacts Contract ExecutorDecoder.

(** ** What a successful parse implies *)

Lemma bind_ok {A B} (m : Reader A) (k : A -> Reader B)
    (buffer : Buffer) (off off' : nat) (v : B) :
  mbind k m buffer off = Ok (v, off') ->
  exists a off1, m buffer off = Ok (a, off1) /\ k a buffer off1 = Ok (v, off').
Proof.
  unfold mbind, reader_bind, bind.
  destruct (m buffer off) as [[a off1]|e]; [|discriminate].
  intros H. exists a, off1. split; [reflexivity | exact H].
Qed.

Lemma byte_value_range (b : byte) : 0 <= byte_value b < 256.
Proof.
  unfold byte_value. pose proof (Byte.to_N_bounded b). lia.
Qed.

Lemma be_value_nonneg (bs : list byte) : 0 <= be_value bs.
Proof.
  unfold be_value.
  assert (H : forall acc, 0 <= acc ->
                0 <= fold_left (fun acc b => acc * 256 + byte_value b) bs acc).
  { induction bs as [|b bs IH]; intros acc Hacc; simpl; [exact Hacc|].
    apply IH. pose proof (byte_value_range b). lia. }
  apply H. lia.
Qed.

Lemma be_value_single (b : byte) : be_value [b] = byte_value b.
Proof. reflexivity. Qed.

Lemma readAt_ok (w : nat) (buffer : Buffer) (off off' : nat) (v : Z) :
  readAt w buffer off = Ok (v, off') ->
  (off + w <= length buffer)%nat /\ off' = off
  /\ v = be_value (slice buffer off (off + w)).
Proof.
  unfold readAt, readUIntBE.
  destruct (Nat.leb_spec (off + w) (length buffer)); [|discriminate].
  intros [= <- <-]. auto.
Qed.

Lemma advance_ok (n : nat) (buffer : Buffer) (off off' : nat) (u : unit) :
  advance n buffer off = Ok (u, off') -> off' = (off + n)%nat.
Proof. unfold advance. intros [= _ <-]. reflexivity. Qed.

Lemma sliceAt_ok (n : nat) (buffer : Buffer) (off off' : nat) (d : Buffer) :
  sliceAt n buffer off = Ok (d, off') ->
  off' = off /\ d = slice buffer off (off + n).
Proof. unfold sliceAt. intros [= <- <-]. auto. Qed.

Lemma readU64_ok (buffer : Buffer) (off off' : nat) (v : Z) :
  readU64 buffer off = Ok (v, off') ->
  (off + 8 <= length buffer)%nat /\ off' = (off + 8)%nat /\ 0 <= v.
Proof.
  unfold readU64. intros H.
  apply bind_ok in H. destruct H as (a & o1 & H1 & H).
  apply bind_ok in H. destruct H as (u & o2 & H2 & H).
  apply readAt_ok in H1. destruct H1 as (Hb & -> & ->).
  apply advance_ok in H2. subst o2.
  unfold ret in H. injection H as <- <-.
  split; [exact Hb|]. split; [reflexivity|]. apply be_value_nonneg.
Qed.

Lemma readLengthPrefixed_ok (buffer : Buffer) (off off' : nat) (d : Buffer) :
  readLengthPrefixed buffer off = Ok (d, off') ->
  (off + 4 <= off')%nat.
Proof.
  unfold readLengthPrefixed. intros H.
  apply bind_ok in H. destruct H as (len & o1 & H1 & H).
  apply bind_ok in H. destruct H as (u & o2 & H2 & H).
  apply bind_ok in H. destruct H as (dat & o3 & H3 & H).
  apply bind_ok in H. destruct H as (u' & o4 & H4 & H).
  apply readAt_ok in H1. destruct H1 as (_ & -> & _).
  apply advance_ok in H2. apply sliceAt_ok in H3. destruct H3 as (-> & _).
  apply advance_ok in H4. unfold ret in H. injection H as _ <-. lia.
Qed.

Lemma readBigUint_ok (buffer : Buffer) (off off' : nat) (v : Z) :
  readBigUint buffer off = Ok (v, off') ->
  (off + 4 <= off')%nat /\ 0 <= v.
Proof.
  unfold readBigUint. intros H.
  apply bind_ok in H. destruct H as (len & o1 & H1 & H).
  apply bind_ok in H. destruct H as (u & o2 & H2 & H).
  apply readAt_ok in H1. destruct H1 as (_ & -> & _).
  apply advance_ok in H2. subst o2.
  destruct (len =? 0).
  - unfold ret in H. injection H as <- <-. split; lia.
  - apply bind_ok in H. destruct H as (dat & o3 & H3 & H).
    apply bind_ok in H. destruct H as (u' & o4 & H4 & H).
    apply sliceAt_ok in H3. destruct H3 as (-> & _).
    apply advance_ok in H4.
    destruct dat as [|b dat']; [discriminate|].
    unfold ret in H. injection H as <- <-.
    split; [lia | apply be_value_nonneg].
Qed.

Lemma of_bigint_nonneg (n : Z) : 0 <= n -> 0 <= JsNum.of_bigint n.
Proof.
  intros Hn. unfold JsNum.of_bigint.
  destruct (n <? 2 ^ 53); [exact Hn|].
  apply Z.shiftl_nonneg.
  assert (0 <= Z.shiftr n (Z.log2 n - 52)) by (apply Z.shiftr_nonneg; lia).
  destruct (_ || _); lia.
Qed.

Lemma toISOString_ok (ms : Z) (buffer : Buffer) (off : nat)
    (u : unit) (off' : nat) :
  toISOString ms buffer off = Ok (u, off') -> off' = off.
Proof.
  unfold toISOString.
  destruct (Z.abs ms <=? 8640000000000000);
    [unfold ret; intros [= _ <-]; reflexivity | discriminate].
Qed.

Lemma parseOrder_ok (orderId : Z) (buffer : Buffer) (o : LimitOrder)
    (off' : nat) :
  parseOrder orderId buffer 0%nat = Ok (o, off') ->
  (85 <= off' <= length buffer)%nat
  /\ order_id o = orderId
  /\ length (user o) = 32%nat
  /\ 0 <= from_amount o
  /\ 0 <= target_price_numerator o
  /\ 0 <= target_price_denominator o
  /\ 0 <= slippage_bp o
  /\ 0 <= expires_at o
  /\ 0 <= created_at o
  /\ 0 <= status o <= 255.
Proof.
  unfold parseOrder. intros H.
  apply bind_ok in H. destruct H as (pid & o1 & H1 & H).
  apply bind_ok in H. destruct H as (usr & o2 & H2 & H).
  apply bind_ok in H. destruct H as (u3 & o3 & H3 & H).
  apply bind_ok in H. destruct H as (ft & o4 & H4 & H).
  apply bind_ok in H. destruct H as (fa & o5 & H5 & H).
  apply bind_ok in H. destruct H as (tt' & o6 & H6 & H).
  apply bind_ok in H. destruct H as (tn & o7 & H7 & H).
  apply bind_ok in H. destruct H as (td & o8 & H8 & H).
  apply bind_ok in H. destruct H as (sl & o9 & H9 & H).
  apply bind_ok in H. destruct H as (ex & o10 & H10 & H).
  apply bind_ok in H. destruct H as (st & o11 & H11 & H).
  apply bind_ok in H. destruct H as (u12 & o12 & H12 & H).
  apply bind_ok in H. destruct H as (cr & o13 & H13 & H).
  apply bind_ok in H. destruct H as (u14 & o14 & H14 & H).
  apply readU64_ok in H1. destruct H1 as (B1 & -> & _).
  apply sliceAt_ok in H2. destruct H2 as (-> & ->).
  apply advance_ok in H3. subst o3.
  apply readLengthPrefixed_ok in H4.
  apply readBigUint_ok in H5. destruct H5 as (B5 & N5).
  apply readLengthPrefixed_ok in H6.
  apply readBigUint_ok in H7. destruct H7 as (B7 & N7).
  apply readBigUint_ok in H8. destruct H8 as (B8 & N8).
  apply readU64_ok in H9. destruct H9 as (B9 & -> & N9).
  apply readU64_ok in H10. destruct H10 as (B10 & -> & N10).
  apply readAt_ok in H11. destruct H11 as (B11 & -> & Hst).
  apply advance_ok in H12. subst o12.
  apply readU64_ok in H13. destruct H13 as (B13 & -> & N13).
  apply toISOString_ok in H14. subst o14.
  unfold ret in H. injection H as <- <-. cbn.
  split; [lia|]. split; [reflexivity|].
  split.
  { unfold slice. rewrite length_take, length_drop. lia. }
  split; [exact N5|]. split; [exact N7|]. split; [exact N8|].
  split; [apply of_bigint_nonneg, N9|].
  split; [apply of_bigint_nonneg, N10|].
  split; [apply of_bigint_nonneg, N13|].
  subst st. unfold slice.
  replace (o8 + 8 + 8 + 1 - (o8 + 8 + 8))%nat with 1%nat by lia.
  destruct (drop (o8 + 8 + 8) buffer) as [|b tl] eqn:E.
  { apply (f_equal (@length byte)) in E. rewrite length_drop in E.
    simpl in E. lia. }
  cbn [take firstn]. rewrite be_value_single.
  pose proof (byte_value_range b). lia.
Qed.

(** X12.  [getLimitOrder] returns an order only from a complete reply:
    whenever it returns one, the first entry of the reply holds at least
    the 85 bytes of the fixed part of the layout, the owner has 32 bytes,
    the status is one byte, no number is negative, and the order carries
    the id that was asked for. *)
Theorem getLimitOrder_returns_whole_orders
    (orderId : Z) (first : Buffer) (others : list Buffer)
    (code : option Z) (o : LimitOrder) :
  getLimitOrder orderId
    (Ok {| returnData := Some (first :: others); statusCode := code |})
  = Some o ->
  (85 <= length first)%nat
  /\ order_id o = orderId
  /\ length (user o) = 32%nat
  /\ 0 <= from_amount o
  /\ 0 <= target_price_numerator o
  /\ 0 <= target_price_denominator o
  /\ 0 <= slippage_bp o
  /\ 0 <= expires_at o
  /\ 0 <= created_at o
  /\ 0 <= status o <= 255.
Proof.
  unfold getLimitOrder. cbn [returnData statusCode].
  destruct (bool_decide (code = Some 500)); [discriminate|].
  unfold run.
  destruct (parseOrder orderId first 0%nat) as [[o' off']|e] eqn:E;
    [|discriminate].
  intros [= <-]. apply parseOrder_ok in E.
  destruct E as (Hlen & Hrest). split; [lia | exact Hrest].
Qed.

Lemma getLimitOrder_returns_whole_orders_witness :
  (85 <= length (Contract.encode_order Samples.order20))%nat
  /\ order_id Samples.order20 = 20.
Proof.
  pose proof (getLimitOrder_returns_whole_orders 20
                (Contract.encode_order Samples.order20) [] None
                Samples.order20) as H.
  destruct H as (H1 & H2 & _).
  - vm_compute. reflexivity.
  - split; [exact H1 | exact H2].
Defined.


(** ** The frontend's decoder *)

Lemma buffer_eqb_eq (a : Buffer) :
  forall b, Frontend.buffer_eqb a b = true <-> a = b.
Proof.
  induction a as [|x a IH]; intros [|y b]; simpl; split;
    try discriminate; try reflexivity.
  - intros H. apply andb_true_iff in H. destruct H as [Hxy Hab].
    apply Byte.byte_dec_bl in Hxy. apply IH in Hab. congruence.
  - intros [= -> ->]. apply andb_true_iff. split.
    + apply Byte.byte_dec_lb. reflexivity.
    + apply IH. reflexivity.
Qed.

Lemma decodeOrder_ok (userAddress buffer : Buffer)
    (fo : Frontend.LimitOrder) (off' : nat) :
  Frontend.decodeOrder userAddress buffer 0%nat = Ok (Some fo, off') ->
  Frontend.user fo = userAddress
  /\ length (Frontend.user fo) = 32%nat
  /\ Frontend.status fo = Frontend.Pending
  /\ 0 <= Frontend.slippageBp fo < 65536.
Proof.
  unfold Frontend.decodeOrder. intros H.
  apply bind_ok in H. destruct H as (oid & o1 & _ & H).
  apply bind_ok in H. destruct H as (u1 & o2 & _ & H).
  apply bind_ok in H. destruct H as (userBytes & o3 & _ & H).
  destruct (Nat.eqb_spec (length userBytes) 32) as [Hlen|]; [|discriminate].
  cbn [negb] in H.
  apply bind_ok in H. destruct H as (u2 & o4 & _ & H).
  destruct (Frontend.buffer_eqb userBytes userAddress) eqn:Heq;
    [|discriminate].
  cbn [negb] in H. apply buffer_eqb_eq in Heq.
  do 20 (apply bind_ok in H; destruct H as (? & ? & _ & H)).
  apply bind_ok in H. destruct H as (sl & o5 & Hsl & H).
  do 2 (apply bind_ok in H; destruct H as (? & ? & _ & H)).
  apply bind_ok in H. destruct H as (ts & o6 & _ & H).
  unfold ret in H. injection H as <- _. cbn.
  split; [exact Heq|]. split; [exact Hlen|]. split; [reflexivity|].
  apply readAt_ok in Hsl. destruct Hsl as (Hb & Ho5 & ->).
  split; [apply be_value_nonneg|].
  unfold slice.
  match goal with
  | |- context [take ?n (drop ?k buffer)] =>
      set (bs := take n (drop k buffer))
  end.
  assert (Hl : length bs = 2%nat).
  { unfold bs. rewrite length_take, length_drop. lia. }
  destruct bs as [|b0 [|b1 [|b2 tl]]]; try discriminate.
  unfold be_value. cbn [fold_left].
  pose proof (byte_value_range b0). pose proof (byte_value_range b1). lia.
Qed.

Lemma decodeOrders_owned (userAddress : Buffer) (encoded : list Buffer) :
  Forall (fun fo => Frontend.user fo = userAddress
                    /\ length (Frontend.user fo) = 32%nat
                    /\ Frontend.status fo = Frontend.Pending
                    /\ 0 <= Frontend.slippageBp fo < 65536)
         (Frontend.decodeOrders userAddress encoded)
  /\ (length (Frontend.decodeOrders userAddress encoded)
      <= length encoded)%nat.
Proof.
  induction encoded as [|buffer rest [IH1 IH2]]; simpl.
  - split; [constructor | lia].
  - unfold run.
    destruct (Frontend.decodeOrder userAddress buffer 0%nat)
      as [[[fo|] off']|e] eqn:E.
    + split; [|simpl; lia].
      constructor; [exact (decodeOrder_ok _ _ _ _ E) | exact IH1].
    + split; [exact IH1 | lia].
    + split; [exact IH1 | lia].
Qed.

(** X13.  [getUserPendingOrders] shows a user only that user's orders:
    every order it returns has the caller's address as owner (32 bytes),
    the status Pending and a slippage below 65536, whatever the reply
    holds; entries of other owners and entries that cannot be decoded are
    left out, so the result is never longer than the reply. *)
Theorem getUserPendingOrders_only_own_orders
    (userAddress : Buffer) (response : result Frontend.ApiResponse) :
  Forall (fun fo => Frontend.user fo = userAddress
                    /\ length (Frontend.user fo) = 32%nat
                    /\ Frontend.status fo = Frontend.Pending
                    /\ 0 <= Frontend.slippageBp fo < 65536)
         (Frontend.getUserPendingOrders userAddress response)
  /\ (length (Frontend.getUserPendingOrders userAddress response)
      <= match response with
         | Ok {| Frontend.returnData := Some encoded |} => length encoded
         | _ => 0
         end)%nat.
Proof.
  unfold Frontend.getUserPendingOrders.
  destruct response as [[okb code [encoded|]]|e];
    cbn [Frontend.ok Frontend.returnCode Frontend.returnData];
    try destruct okb; try destruct (String.eqb code "ok");
    cbn [negb];
    try (split; [constructor | simpl; lia]).
  apply decodeOrders_owned.
Qed.


(** ** The frontend's decoder on the contract's layout *)

Import Reading.

Lemma yields_ret {A} (v : A) (field : Buffer) : yields (ret v) field v.
Proof. intros pre rest. eexists. reflexivity. Qed.

Lemma yields_peek {A B} (m : Reader A) (k : A -> Reader B)
    (f1 f2 : Buffer) (a : A) (v : B) :
  peeks m f1 a -> yields (k a) (f1 ++ f2) v ->
  yields (mbind k m) (f1 ++ f2) v.
Proof.
  intros H1 H2 pre rest. unfold mbind, reader_bind, bind.
  rewrite <- (app_assoc f1 f2 rest), (H1 pre (f2 ++ rest)).
  rewrite (app_assoc f1 f2 rest). apply H2.
Qed.

Lemma yields_advance {B} (n : nat) (k : Reader B)
    (f1 f2 : Buffer) (v : B) :
  length f1 = n -> yields k f2 v ->
  yields (mbind (fun _ : unit => k) (advance n)) (f1 ++ f2) v.
Proof.
  intros Hn H2 pre rest. unfold mbind, reader_bind, bind, advance.
  replace (length pre + n)%nat with (length (pre ++ f1))
    by (rewrite length_app; lia).
  rewrite <- (app_assoc f1 f2 rest), (app_assoc pre f1 (f2 ++ rest)).
  apply H2.
Qed.

Lemma yields_run {A} (m : Reader A) (field : Buffer) (v : A) :
  yields m field v -> run m field = Ok v.
Proof.
  intros H. unfold run. destruct (H [] []) as [off Hoff].
  rewrite app_nil_r in Hoff. simpl in Hoff. rewrite Hoff. reflexivity.
Qed.

Lemma peeks_readAt_value (w : nat) (field : Buffer) :
  length field = w -> peeks (readAt w) field (be_value field).
Proof.
  intros Hlen pre rest. unfold readAt, readUIntBE.
  destruct (Nat.leb_spec (length pre + w)
              (length (pre ++ field ++ rest))) as [_|Hlt].
  - rewrite slice_middle by exact Hlen. reflexivity.
  - rewrite !length_app, Hlen in Hlt. lia.
Qed.

Lemma be_value_app (l1 l2 : list byte) :
  be_value (l1 ++ l2) = be_value l1 * 256 ^ Z.of_nat (length l2) + be_value l2.
Proof.
  induction l2 as [|b l2 IH] using rev_ind.
  - rewrite app_nil_r. simpl. unfold be_value at 3. simpl. lia.
  - rewrite app_assoc, !be_value_snoc, IH, length_app. simpl.
    rewrite Nat2Z.inj_add, Z.pow_add_r by lia.
    change (256 ^ Z.of_nat 1) with 256. ring.
Qed.

Lemma be_bytes_split (b : nat) :
  forall (a : nat) (v : Z),
    be_bytes (a + b) v = be_bytes a (v / 256 ^ Z.of_nat b) ++ be_bytes b v.
Proof.
  induction b as [|b IH]; intros a v.
  - rewrite Nat.add_0_r. simpl. rewrite Z.div_1_r, app_nil_r. reflexivity.
  - replace (a + S b)%nat with (S (a + b)) by lia.
    cbn [be_bytes]. rewrite IH, Z.div_div by lia.
    rewrite <- app_assoc.
    replace (256 * 256 ^ Z.of_nat b) with (256 ^ Z.of_nat (S b))
      by (rewrite Nat2Z.inj_succ, Z.pow_succ_r by lia; reflexivity).
    reflexivity.
Qed.

(** The frontend's reading of one length-prefixed field. *)
Lemma yields_prefixed_field {B} (bs : Buffer)
    (k : Z -> Buffer -> Reader B) (f2 : Buffer) (v : B) :
  Z.of_nat (length bs) < 2 ^ 32 ->
  yields (k (Z.of_nat (length bs)) bs) f2 v ->
  yields
    (mbind (fun len =>
       mbind (fun _ : unit =>
         mbind (fun data =>
           mbind (fun _ : unit => k len data)
                 (advance (Z.to_nat len)))
               (sliceAt (Z.to_nat len)))
             (advance 4))
       (readAt 4))
    ((be_bytes 4 (Z.of_nat (length bs)) ++ bs) ++ f2) v.
Proof.
  intros Hlen Hk. rewrite <- app_assoc.
  eapply yields_peek.
  { apply peeks_readAt. change (256 ^ Z.of_nat 4) with (2 ^ 32). lia. }
  cbv beta. apply yields_advance; [apply be_bytes_length|].
  rewrite Nat2Z.id.
  eapply yields_peek; [apply peeks_sliceAt; reflexivity|].
  cbv beta. apply yields_advance; [reflexivity|]. exact Hk.
Qed.


Lemma yields_field_eq {A} (m : Reader A) (f f' : Buffer) (v : A) :
  yields m f v -> f = f' -> yields m f' v.
Proof. intros H <-. exact H. Qed.

(** The frontend's reading of one big unsigned integer: the length, then
    the magnitude bytes as they are. *)
Lemma yields_biguint_field {B} (n : Z)
    (k : Z -> Buffer -> Reader B) (f2 : Buffer) (v : B) :
  Z.of_nat (byte_length n) < 2 ^ 32 ->
  yields (k (Z.of_nat (byte_length n)) (be_bytes (byte_length n) n)) f2 v ->
  yields
    (mbind (fun len =>
       mbind (fun _ : unit =>
         mbind (fun data =>
           mbind (fun _ : unit => k len data)
                 (advance (Z.to_nat len)))
               (sliceAt (Z.to_nat len)))
             (advance 4))
       (readAt 4))
    (encode_biguint n ++ f2) v.
Proof.
  intros Hlen Hk. unfold encode_biguint.
  pose proof (be_bytes_length (byte_length n) n) as Hl.
  pose proof (yields_prefixed_field (be_bytes (byte_length n) n) k f2 v)
    as H.
  rewrite Hl in H. apply H; assumption.
Qed.

(** The last reads of the frontend: two bytes as the slippage, eight
    bytes skipped, eight bytes as the expiry. *)
Lemma yields_tail {B} (g : Z -> Z -> B) (sl ex st cr : Z) :
  yields
    (mbind (fun s =>
       mbind (fun _ : unit =>
         mbind (fun _ : unit =>
           mbind (fun ts => ret (g s ts)) (readAt 8))
               (advance 8))
             (advance 2))
       (readAt 2))
    (encode_u64 sl ++ encode_u64 ex ++ encode_u8 st ++ encode_u64 cr ++ [])
    (g (be_value (be_bytes 2 (sl / 256 ^ 6)))
       (be_value (be_bytes 6 ex ++ be_bytes 1 st
                  ++ be_bytes 1 (cr / 256 ^ 7)))).
Proof.
  unfold encode_u64, encode_u8.
  eapply yields_field_eq with
    (f := be_bytes 2 (sl / 256 ^ 6)
          ++ (be_bytes 6 sl ++ be_bytes 2 (ex / 256 ^ 6))
          ++ (be_bytes 6 ex ++ be_bytes 1 st ++ be_bytes 1 (cr / 256 ^ 7))
          ++ (be_bytes 7 cr ++ [])).
  - eapply yields_peek;
      [apply peeks_readAt_value, be_bytes_length|]. cbv beta.
    apply yields_advance; [apply be_bytes_length|].
    apply yields_advance;
      [rewrite length_app, !be_bytes_length; reflexivity|].
    eapply yields_peek;
      [apply peeks_readAt_value;
       rewrite !length_app, !be_bytes_length; reflexivity|].
    cbv beta. apply yields_ret.
  - change 8%nat with (2 + 6)%nat at 1 2.
    change 8%nat with (1 + 7)%nat.
    rewrite (be_bytes_split 6 2 sl), (be_bytes_split 6 2 ex),
            (be_bytes_split 7 1 cr).
    change (Z.of_nat 6) with 6. change (Z.of_nat 7) with 7.
    rewrite <- !app_assoc. reflexivity.
Qed.

Lemma buffer_eqb_refl (a : Buffer) : Frontend.buffer_eqb a a = true.
Proof. apply buffer_eqb_eq. reflexivity. Qed.

Lemma frontend_reading_of_layout (o : LimitOrder) :
  Contract.well_formed o ->
  order_id o < 2 ^ 53 ->
  expires_at o < 2 ^ 37 ->
  Frontend.getUserPendingOrders (user o)
    (Ok {| Frontend.ok := true;
           Frontend.returnCode := "ok";
           Frontend.returnData := Some [Contract.encode_order o] |})
  = [ {| Frontend.orderId := order_id o;
         Frontend.user := user o;
         Frontend.fromToken := from_token o;
         Frontend.toToken := to_token o;
         Frontend.fromAmount :=
           be_bytes (byte_length (from_amount o)) (from_amount o);
         Frontend.targetPriceNum :=
           be_bytes (byte_length (target_price_numerator o))
             (target_price_numerator o);
         Frontend.targetPriceDenom :=
           be_bytes (byte_length (target_price_denominator o))
             (target_price_denominator o);
         Frontend.slippageBp := 0;
         Frontend.expiresAt :=
           Frontend.new_Date
             ((expires_at o * 65536 + status o * 256) * 1000);
         Frontend.status := Frontend.Pending |} ].
Proof.
  intros [Hid Huser Hft Hfa Hfal Htt Hnum Hnuml Hden Hdenl Hsl Hex Hst Hcr]
         Hid53 Hex37.
  assert (Hy : exists fo,
             yields (Frontend.decodeOrder (user o))
                    (Contract.encode_order o) (Some fo)
             /\ fo = {| Frontend.orderId := order_id o;
                        Frontend.user := user o;
                        Frontend.fromToken := from_token o;
                        Frontend.toToken := to_token o;
                        Frontend.fromAmount :=
                          be_bytes (byte_length (from_amount o))
                            (from_amount o);
                        Frontend.targetPriceNum :=
                          be_bytes (byte_length (target_price_numerator o))
                            (target_price_numerator o);
                        Frontend.targetPriceDenom :=
                          be_bytes (byte_length (target_price_denominator o))
                            (target_price_denominator o);
                        Frontend.slippageBp := 0;
                        Frontend.expiresAt :=
                          Frontend.new_Date
                            ((expires_at o * 65536 + status o * 256) * 1000);
                        Frontend.status := Frontend.Pending |}).
  { eexists. split.
    - unfold Frontend.decodeOrder, Contract.encode_order.
      eapply yields_peek;
        [apply peeks_readAt; exact Hid|]. cbv beta.
      apply yields_advance; [apply be_bytes_length|].
      eapply yields_peek; [apply peeks_sliceAt; exact Huser|]. cbv beta.
      rewrite Huser. cbn [Nat.eqb negb].
      apply yields_advance; [exact Huser|].
      rewrite buffer_eqb_refl. cbn [negb].
      unfold encode_bytes.
      eapply yields_prefixed_field;
        [rewrite DecoderFacts.list_byte_of_string_length; exact Hft|]. cbv beta.
      eapply yields_biguint_field; [exact Hfal|]. cbv beta.
      eapply yields_prefixed_field;
        [rewrite DecoderFacts.list_byte_of_string_length; exact Htt|]. cbv beta.
      eapply yields_biguint_field; [exact Hnuml|]. cbv beta.
      eapply yields_biguint_field; [exact Hdenl|]. cbv beta.
      apply (yields_tail
               (fun s ts =>
                  Some {| Frontend.orderId := JsNum.of_bigint (order_id o);
                          Frontend.user := user o;
                          Frontend.fromToken :=
                            string_of_list_byte
                              (list_byte_of_string (from_token o));
                          Frontend.toToken :=
                            string_of_list_byte
                              (list_byte_of_string (to_token o));
                          Frontend.fromAmount :=
                            be_bytes (byte_length (from_amount o))
                              (from_amount o);
                          Frontend.targetPriceNum :=
                            be_bytes
                              (byte_length (target_price_numerator o))
                              (target_price_numerator o);
                          Frontend.targetPriceDenom :=
                            be_bytes
                              (byte_length (target_price_denominator o))
                              (target_price_denominator o);
                          Frontend.slippageBp := s;
                          Frontend.expiresAt :=
                            Frontend.new_Date (JsNum.of_bigint ts * 1000);
                          Frontend.status := Frontend.Pending |})).
    - assert (Hexact : forall v, v < 2 ^ 53 -> JsNum.of_bigint v = v).
      { intros v Hv. unfold JsNum.of_bigint.
        destruct (Z.ltb_spec v (2 ^ 53)); [reflexivity | lia]. }
      rewrite !string_of_list_byte_of_string.
      rewrite (Hexact (order_id o)) by exact Hid53.
      rewrite !be_value_app, !be_value_be_bytes_mod, !length_app,
              !be_bytes_length.
      change (Z.of_nat 2) with 2. change (Z.of_nat 6) with 6.
      change (Z.of_nat 1) with 1. change (Z.of_nat (1 + 1)) with 2.
      assert (H37 : 2 ^ 37 < 256 ^ 6) by reflexivity.
      rewrite (Z.div_small (slippage_bp o) (256 ^ 6))
        by (assert (10000 < 256 ^ 6) by reflexivity; lia).
      rewrite (Z.div_small (created_at o) (256 ^ 7))
        by (assert (2 ^ 53 < 256 ^ 7) by reflexivity; lia).
      rewrite (Z.mod_small (expires_at o)) by lia.
      rewrite (Z.mod_small (status o)) by lia.
      rewrite !Z.mod_0_l by lia.
      replace (expires_at o * 256 ^ 2 + (status o * 256 ^ 1 + 0))
        with (expires_at o * 65536 + status o * 256) by lia.
      rewrite Hexact; [reflexivity|].
      change (2 ^ 37) with 137438953472 in Hex37.
      change (2 ^ 53) with 9007199254740992. lia. }
  destruct Hy as (fo & Hy & ->).
  unfold Frontend.getUserPendingOrders.
  cbn [Frontend.ok Frontend.returnCode Frontend.returnData negb].
  cbn [String.eqb Ascii.eqb Bool.eqb negb Frontend.decodeOrders].
  rewrite (yields_run _ _ _ Hy). reflexivity.
Qed.

(** X14.  What the frontend decodes from the contract's layout.  For a
    well-formed order with an id below 2^53 and an expiry below 2^37,
    asked for by its owner, [getUserPendingOrders] returns one order with
    the order's id, owner and tokens, with the magnitude bytes of the
    amount and of the two price numbers, and with the status Pending; its
    slippage is 0 whatever the order's slippage is, and its expiry is the
    date of (expires_at · 65536 + status · 256) seconds instead of
    [expires_at] seconds. *)
Theorem frontend_decoding_of_contract_layout (o : LimitOrder) :
  Contract.well_formed o ->
  order_id o < 2 ^ 53 ->
  expires_at o < 2 ^ 37 ->
  Frontend.getUserPendingOrders (user o)
    (Ok {| Frontend.ok := true;
           Frontend.returnCode := "ok";
           Frontend.returnData := Some [Contract.encode_order o] |})
  = [ {| Frontend.orderId := order_id o;
         Frontend.user := user o;
         Frontend.fromToken := from_token o;
         Frontend.toToken := to_token o;
         Frontend.fromAmount :=
           be_bytes (byte_length (from_amount o)) (from_amount o);
         Frontend.targetPriceNum :=
           be_bytes (byte_length (target_price_numerator o))
             (target_price_numerator o);
         Frontend.targetPriceDenom :=
           be_bytes (byte_length (target_price_denominator o))
             (target_price_denominator o);
         Frontend.slippageBp := 0;
         Frontend.expiresAt :=
           Frontend.new_Date
             ((expires_at o * 65536 + status o * 256) * 1000);
         Frontend.status := Frontend.Pending |} ].
Proof. exact (frontend_reading_of_layout o). Qed.

Lemma frontend_decoding_of_contract_layout_witness :
  map (fun fo => (Frontend.slippageBp fo, Frontend.expiresAt fo))
    (Frontend.getUserPendingOrders Samples.alice
       (Ok {| Frontend.ok := true;
              Frontend.returnCode := "ok";
              Frontend.returnData :=
                Some [Contract.encode_order Samples.order20] |}))
  = [(0, Frontend.new_Date ((1700000000 * 65536 + 0 * 256) * 1000))].
Proof.
  pose proof (frontend_decoding_of_contract_layout Samples.order20
                DecoderFacts.order20_well_formed) as H.
  change (user Samples.order20) with Samples.alice in H.
  rewrite H.
  - reflexivity.
  - vm_compute. reflexivity.
  - vm_compute. reflexivity.
Defined.

End DecoderExtras.

(** * Further properties of the price helpers *)

Module PriceExtras.

(** X17.  The frontend quotes the price the executor acts on.  When the
    frontend's request succeeds (the response is ok and carries no
    [errors] member) and returns the pairs that the executor is given,
    then whenever [getTokenPairPrice] of the executor obtains a price p,
    [getCurrentPriceFromXExchange] of the frontend returns the same
    double p, together with the double-precision quotient 1 / p. *)
Theorem frontend_price_agrees_with_executor
    (reply : FrontendPrice.GraphReply) (pairs : list Executor.Pair)
    (fromToken toToken : string) (p : Double.double) :
  FrontendPrice.ok reply = true ->
  FrontendPrice.errors reply = false ->
  FrontendPrice.pairs reply = Some pairs ->
  Executor.getTokenPairPrice (Ok (Some pairs)) fromToken toToken = Some p ->
  FrontendPrice.getCurrentPriceFromXExchange (Ok reply) fromToken toToken
  = Some (p, Double.div (Double.of_Z 1) p).
Proof.
  intros Hok Herr Hpairs.
  unfold Executor.getTokenPairPrice,
         FrontendPrice.getCurrentPriceFromXExchange.
  rewrite Hok, Herr, Hpairs. cbn [negb].
  destruct pairs as [|p0 ps]; [discriminate|].
  destruct (find (Executor.matches fromToken toToken) (p0 :: ps)) as [pr|];
    [|discriminate].
  destruct (negb (Double.truthy
                    (Double.parseFloat (Executor.reserves0 pr)))
            || negb (Double.truthy
                       (Double.parseFloat (Executor.reserves1 pr))));
    [discriminate|].
  destruct (String.eqb (Executor.identifier (Executor.firstToken pr))
              fromToken);
    intros [= <-]; reflexivity.
Qed.

(** The sample pool: both sides quote the double 0.15, and the frontend
    adds 6.666666666666667. *)
Lemma frontend_price_agrees_with_executor_witness :
  FrontendPrice.getCurrentPriceFromXExchange
    (Ok {| FrontendPrice.ok := true;
           FrontendPrice.errors := false;
           FrontendPrice.pairs := Some [Samples.pool] |})
    "USDC-c76f1f" "WEGLD-bd4d79"
  = Some (S754_finite false 5404319552844595 (-55),
          S754_finite false 7505999378950827 (-50)).
Proof.
  rewrite (frontend_price_agrees_with_executor
             {| FrontendPrice.ok := true;
                FrontendPrice.errors := false;
                FrontendPrice.pairs := Some [Samples.pool] |}
             [Samples.pool] "USDC-c76f1f" "WEGLD-bd4d79"
             (S754_finite false 5404319552844595 (-55))
             eq_refl eq_refl eq_refl);
    vm_compute; reflexivity.
Defined.

End PriceExtras.

(** * Transaction payloads *)

Module TxDataFacts.
Import TxData.

Lemma append_nil_l (s : string) : String.append "" s = s.
Proof. reflexivity. Qed.

Lemma append_cons (c : ascii) (s1 s2 : string) :
  String.append (String c s1) s2 = String c (String.append s1 s2).
Proof. reflexivity. Qed.

Lemma append_length (s1 s2 : string) :
  String.length (String.append s1 s2)
  = (String.length s1 + String.length s2)%nat.
Proof.
  induction s1 as [|c s1 IH];
    [reflexivity | rewrite append_cons; simpl; now rewrite IH].
Qed.

Lemma append_assoc (s1 s2 s3 : string) :
  String.append (String.append s1 s2) s3
  = String.append s1 (String.append s2 s3).
Proof.
  induction s1 as [|c s1 IH];
    [reflexivity | rewrite !append_cons; now rewrite IH].
Qed.

Lemma append_nil_r (s : string) : String.append s "" = s.
Proof.
  induction s as [|c s IH];
    [reflexivity | rewrite append_cons; now rewrite IH].
Qed.

Lemma hex_fixed_length (k : nat) :
  forall n, String.length (hex_fixed k n) = k.
Proof.
  induction k as [|k IH]; intros n; simpl; [reflexivity|].
  rewrite append_length, IH. simpl. lia.
Qed.

Lemma digit_value_hex_digit (d : Z) :
  0 <= d < 16 -> Server.digit_value 16 (hex_digit d) = Some d.
Proof.
  intros Hd.
  replace d with (Z.of_nat (Z.to_nat d)) by lia.
  assert (Hn : (Z.to_nat d < 16)%nat) by lia.
  generalize dependent (Z.to_nat d). clear d Hd. intros n Hn.
  do 16 (destruct n as [|n]; [reflexivity|]). lia.
Qed.

Lemma parse_hex_fixed (k : nat) :
  forall (n : Z) (rest : string) (a : Z),
    Server.parse_digits 16 (hex_fixed k n ++ rest) (Some a)
    = Server.parse_digits 16 rest (Some (a * 16 ^ Z.of_nat k
                                          + n mod 16 ^ Z.of_nat k)).
Proof.
  induction k as [|k IH]; intros n rest a.
  - cbn [hex_fixed]. rewrite append_nil_l, Z.mod_1_r. do 2 f_equal.
    change (16 ^ Z.of_nat 0) with 1. lia.
  - cbn [hex_fixed]. rewrite append_assoc, IH, append_cons, append_nil_l.
    cbn [Server.parse_digits].
    rewrite digit_value_hex_digit by (apply Z.mod_pos_bound; lia).
    do 2 f_equal.
    rewrite Nat2Z.inj_succ, Z.pow_succ_r by lia.
    rewrite (Z.rem_mul_r n 16 (16 ^ Z.of_nat k)) by lia. ring.
Qed.

Lemma parse_zeros (m : nat) (s : string) :
  Server.parse_digits 16 (zeros m ++ s) (Some 0)
  = Server.parse_digits 16 s (Some 0).
Proof.
  induction m as [|m IH]; [reflexivity|].
  cbn [zeros]. rewrite append_cons. exact IH.
Qed.

(** Starting from no digit or from the value 0 is the same once the
    first character is a digit. *)
Lemma parse_from_nothing (s : string) :
  match s with
  | String c _ => Server.digit_value 16 c <> None
  | EmptyString => False
  end ->
  Server.parse_digits 16 s None = Server.parse_digits 16 s (Some 0).
Proof.
  destruct s as [|c s]; [contradiction|]. simpl.
  destruct (Server.digit_value 16 c); [reflexivity | contradiction].
Qed.

Lemma hex_fixed_starts_with_digit (k : nat) :
  forall n,
    match hex_fixed (S k) n with
    | String c _ => Server.digit_value 16 c <> None
    | EmptyString => False
    end.
Proof.
  induction k as [|k IH]; intros n.
  - cbn [hex_fixed]. rewrite append_nil_l.
    rewrite digit_value_hex_digit by (apply Z.mod_pos_bound; lia).
    discriminate.
  - change (hex_fixed (S (S k)) n)
      with (String.append (hex_fixed (S k) (n / 16))
              (String (hex_digit (n mod 16)) EmptyString)).
    specialize (IH (n / 16)).
    destruct (hex_fixed (S k) (n / 16)); [contradiction|].
    rewrite append_cons. exact IH.
Qed.

Lemma hex_length_pos (n : Z) : exists k, hex_length n = S k.
Proof.
  unfold hex_length. destruct (n =? 0); [exists 0%nat; reflexivity|].
  assert (0 <= Z.log2 n / 4)
    by (apply Z.div_pos; [apply Z.log2_nonneg | lia]).
  exists (Z.to_nat (Z.log2 n / 4)). lia.
Qed.

Lemma hex_length_bound (n : Z) :
  0 <= n -> n < 16 ^ Z.of_nat (hex_length n).
Proof.
  intros Hn. unfold hex_length.
  destruct (Z.eqb_spec n 0) as [->|Hne]; [reflexivity|].
  assert (Hq : 0 <= Z.log2 n / 4)
    by (apply Z.div_pos; [apply Z.log2_nonneg | lia]).
  rewrite Z2Nat.id by lia.
  change 16 with (2 ^ 4). rewrite <- Z.pow_mul_r by lia.
  apply Z.log2_lt_pow2; [lia|].
  pose proof (Z.mul_succ_div_gt (Z.log2 n) 4 ltac:(lia)). lia.
Qed.

Lemma toString16_reads_back (n : Z) :
  0 <= n ->
  Server.parse_digits 16 (toString16 n) (Some 0) = Some n
  /\ match toString16 n with
     | String c _ => Server.digit_value 16 c <> None
     | EmptyString => False
     end.
Proof.
  intros Hn. unfold toString16.
  destruct (Z.ltb_spec n 0); [lia|].
  split.
  - rewrite <- (append_nil_r (hex_fixed (hex_length n) n)), parse_hex_fixed.
    cbn [Server.parse_digits]. f_equal.
    rewrite Z.mod_small by (split; [lia | apply hex_length_bound; lia]).
    lia.
  - destruct (hex_length_pos n) as [k ->]. apply hex_fixed_starts_with_digit.
Qed.

Lemma toEvenHex_spec (n : Z) :
  0 <= n ->
  (String.length (toEvenHex n) mod 2 = 0)%nat
  /\ Server.parse_digits 16 (toEvenHex n) None = Some n.
Proof.
  intros Hn. unfold toEvenHex.
  destruct (toString16_reads_back n Hn) as [Hval Hfirst].
  destruct (Nat.eqb_spec (String.length (toString16 n) mod 2) 0) as [He|Ho];
    cbn [negb].
  - split; [exact He|]. rewrite parse_from_nothing by exact Hfirst.
    exact Hval.
  - split.
    + cbn [String.length].
      pose proof (Nat.mod_upper_bound (String.length (toString16 n)) 2).
      pose proof (Nat.div_mod_eq (String.length (toString16 n)) 2).
      pose proof (Nat.div_mod_eq (S (String.length (toString16 n))) 2).
      pose proof (Nat.mod_upper_bound (S (String.length (toString16 n))) 2).
      lia.
    + cbn. exact Hval.
Qed.

(** X18.  The hexadecimal arguments of the executor's transaction.  For
    an order id below 2^64 and a non-negative numerator and denominator,
    the data field built by [executeOrder] carries the order id as exactly
    16 hexadecimal digits and the two price numbers as digit strings of
    even length, and each of the three reads back, as a hexadecimal
    numeral, to the value it was built from. *)
Theorem executeOrder_arguments_read_back
    (orderId numerator denominator : Z) :
  0 <= orderId < 2 ^ 64 ->
  0 <= numerator ->
  0 <= denominator ->
  let '(orderIdHex, numeratorHex, denominatorHex) :=
    executeOrder_args orderId numerator denominator in
  executeOrder_data orderId numerator denominator
  = ("executeLimitOrder@" ++ orderIdHex ++ "@" ++ numeratorHex
       ++ "@" ++ denominatorHex)%string
  /\ String.length orderIdHex = 16%nat
  /\ Server.parse_digits 16 orderIdHex None = Some orderId
  /\ (String.length numeratorHex mod 2 = 0)%nat
  /\ Server.parse_digits 16 numeratorHex None = Some numerator
  /\ (String.length denominatorHex mod 2 = 0)%nat
  /\ Server.parse_digits 16 denominatorHex None = Some denominator.
Proof.
  intros Hid Hnum Hden. unfold executeOrder_data, executeOrder_args.
  cbv zeta.
  destruct (toEvenHex_spec numerator Hnum) as [Hn1 Hn2].
  destruct (toEvenHex_spec denominator Hden) as [Hd1 Hd2].
  split; [reflexivity|].
  assert (Hlen : (String.length (toString16 orderId) <= 16)%nat).
  { unfold toString16. destruct (Z.ltb_spec orderId 0); [lia|].
    rewrite hex_fixed_length. unfold hex_length.
    destruct (Z.eqb_spec orderId 0); [lia|].
    assert (Z.log2 orderId < 64) by (apply Z.log2_lt_pow2; lia).
    assert (0 <= Z.log2 orderId) by apply Z.log2_nonneg.
    assert (Z.log2 orderId / 4 < 16)
      by (apply Z.div_lt_upper_bound; lia).
    assert (0 <= Z.log2 orderId / 4) by (apply Z.div_pos; lia).
    lia. }
  destruct (toString16_reads_back orderId (proj1 Hid)) as [Hval Hfirst].
  split; [unfold padStart; rewrite append_length;
          assert (forall m, String.length (zeros m) = m)
            by (induction m; simpl; congruence);
          rewrite H; lia|].
  split; [|repeat split; assumption].
  unfold padStart.
  rewrite parse_from_nothing.
  - rewrite parse_zeros. exact Hval.
  - destruct (16 - String.length (toString16 orderId))%nat.
    + exact Hfirst.
    + cbn [zeros]. rewrite append_cons. discriminate.
Qed.

Lemma executeOrder_arguments_read_back_witness :
  executeOrder_data 20 150000000000000 1000
  = "executeLimitOrder@0000000000000014@886c98b76000@03e8"%string
  /\ Server.parse_digits 16 "886c98b76000" None = Some 150000000000000.
Proof.
  pose proof (executeOrder_arguments_read_back 20 150000000000000 1000)
    as H.
  change (executeOrder_args 20 150000000000000 1000)
    with ("0000000000000014", "886c98b76000", "03e8")%string in H.
  cbv iota beta in H.
  destruct H as (H1 & _ & _ & _ & H2 & _).
  - vm_compute. split; [discriminate | reflexivity].
  - vm_compute. discriminate.
  - vm_compute. discriminate.
  - split; [exact H1 | exact H2].
Defined.

(** X19.  The frontend's cancel transaction names the order: for a
    non-negative order id, the data field of [cancelLimitOrder] is
    [cancelLimitOrder@] followed by an even number of hexadecimal digits
    that read back to the order id. *)
Theorem cancelLimitOrder_data_names_the_order (orderId : Z) :
  0 <= orderId ->
  exists orderIdHex,
    cancelLimitOrder_data orderId = ("cancelLimitOrder@" ++ orderIdHex)%string
    /\ (String.length orderIdHex mod 2 = 0)%nat
    /\ Server.parse_digits 16 orderIdHex None = Some orderId.
Proof.
  intros Hid. exists (toEvenHex orderId).
  split; [reflexivity|]. apply toEvenHex_spec. exact Hid.
Qed.

Lemma cancelLimitOrder_data_names_the_order_witness :
  exists orderIdHex,
    cancelLimitOrder_data 4660 = ("cancelLimitOrder@" ++ orderIdHex)%string
    /\ (String.length orderIdHex mod 2 = 0)%nat
    /\ Server.parse_digits 16 orderIdHex None = Some 4660.
Proof.
  apply (cancelLimitOrder_data_names_the_order 4660).
  vm_compute. discriminate.
Defined.

End TxDataFacts.

(** * The order list of the frontend *)

Module OrderManagerFacts.
Import OrderManager.

(** X20.  The remaining time shown for an order never overstates it.
    For a valid expiry date the label is "Expired" exactly when the date
    is not in the future; otherwise it shows days and hours, hours and
    minutes, or minutes, and the time it shows is at most the true
    remaining time and short of it by less than one unit of its last
    component (an hour for "d h", a minute otherwise). *)
Theorem formatTimeRemaining_never_overstates (ms now : Z) :
  match formatTimeRemaining (Frontend.DateMs ms) now with
  | NotAvailable => False
  | ExpiredLabel => ms <= now
  | DaysHours d h =>
      now < ms /\ 0 < d /\ 0 <= h < 24
      /\ (d * 24 + h) * 3600000 <= ms - now < (d * 24 + h + 1) * 3600000
  | HoursMinutes h m =>
      now < ms /\ 0 < h < 24 /\ 0 <= m < 60
      /\ (h * 60 + m) * 60000 <= ms - now < (h * 60 + m + 1) * 60000
  | Minutes m =>
      now < ms /\ 0 <= m < 60
      /\ m * 60000 <= ms - now < (m + 1) * 60000
  end.
Proof.
  unfold formatTimeRemaining.
  destruct (Z.leb_spec (ms - now) 0) as [Hle|Hgt]; [lia|].
  set (diff := ms - now) in *.
  pose proof (Z.div_mod diff 60000 ltac:(lia)) as E1.
  pose proof (Z.mod_pos_bound diff 60000 ltac:(lia)) as B1.
  assert (M0 : 0 <= diff / 60000) by (apply Z.div_pos; lia).
  set (minutes := diff / 60000) in *.
  pose proof (Z.div_mod minutes 60 ltac:(lia)) as E2.
  pose proof (Z.mod_pos_bound minutes 60 ltac:(lia)) as B2.
  assert (H0 : 0 <= minutes / 60) by (apply Z.div_pos; lia).
  set (hours := minutes / 60) in *.
  pose proof (Z.div_mod hours 24 ltac:(lia)) as E3.
  pose proof (Z.mod_pos_bound hours 24 ltac:(lia)) as B3.
  assert (D0 : 0 <= hours / 24) by (apply Z.div_pos; lia).
  rewrite !Z.gtb_ltb.
  destruct (Z.ltb_spec 0 (hours / 24)) as [Hd|Hd].
  - split; [lia|]. split; [exact Hd|]. split; [exact B3|].
    set (days := hours / 24) in *. set (h := hours mod 24) in *.
    set (m := minutes mod 60) in *. set (r := diff mod 60000) in *.
    lia.
  - assert (Hdz : hours / 24 = 0) by lia.
    destruct (Z.ltb_spec 0 hours) as [Hh|Hh].
    + split; [lia|]. split; [lia|]. split; [exact B2|].
      set (m := minutes mod 60) in *. set (r := diff mod 60000) in *.
      lia.
    + assert (Hhz : hours = 0) by lia.
      split; [lia|].
      set (m := minutes mod 60) in *. set (r := diff mod 60000) in *.
      lia.
Qed.

(** X21.  The two expiry checks of the order list differ only at the
    instant of expiry: whenever [isExpired] holds the label is "Expired";
    when the label is "Expired" either [isExpired] holds or the current
    time is exactly the expiry time; and an invalid date is never expired
    and is labelled "N/A". *)
Theorem isExpired_and_label (expiresAt : Frontend.JsDate) (now : Z) :
  (isExpired expiresAt now = true ->
   formatTimeRemaining expiresAt now = ExpiredLabel)
  /\ (formatTimeRemaining expiresAt now = ExpiredLabel ->
      isExpired expiresAt now = true \/ expiresAt = Frontend.DateMs now)
  /\ isExpired Frontend.InvalidDate now = false
  /\ formatTimeRemaining Frontend.InvalidDate now = NotAvailable
  /\ isExpired (Frontend.DateMs now) now = false
  /\ formatTimeRemaining (Frontend.DateMs now) now = ExpiredLabel.
Proof.
  split; [|split; [|split; [reflexivity|split; [reflexivity|split]]]].
  - destruct expiresAt as [ms|]; [|discriminate]. simpl.
    rewrite Z.gtb_ltb. intros H. apply Z.ltb_lt in H.
    destruct (Z.leb_spec (ms - now) 0); [reflexivity | lia].
  - destruct expiresAt as [ms|]; [|discriminate].
    unfold formatTimeRemaining, isExpired.
    destruct (Z.leb_spec (ms - now) 0) as [Hle|Hgt].
    + intros _. destruct (Z.lt_ge_cases ms now) as [Hlt|Hge].
      * left. rewrite Z.gtb_ltb. apply Z.ltb_lt. exact Hlt.
      * right. f_equal. lia.
    + cbv zeta. destruct (_ >? 0); [discriminate|].
      destruct (_ >? 0); discriminate.
  - unfold isExpired. rewrite Z.gtb_ltb. apply Z.ltb_irrefl.
  - unfold formatTimeRemaining. rewrite Z.sub_diag. reflexivity.
Qed.

Lemma isExpired_and_label_witness :
  formatTimeRemaining (Frontend.DateMs 1700000000000) 1700000000001
  = ExpiredLabel.
Proof.
  apply (proj1 (isExpired_and_label (Frontend.DateMs 1700000000000)
                  1700000000001)).
  reflexivity.
Defined.

(** X22.  An order read from the contract is never shown as expired.
    For a well-formed order with an id below 2^53 whose expiry lies
    between 131 835 938 (March 1974) and 2^37 seconds, fetched by its
    owner, the date that [getUserPendingOrders] attaches to the order is
    invalid, so at every time the order list shows it with "N/A" as
    remaining time and treats it as not expired. *)
Theorem orders_from_contract_never_show_expired (o : LimitOrder) (now : Z) :
  Contract.well_formed o ->
  order_id o < 2 ^ 53 ->
  131835938 <= expires_at o < 2 ^ 37 ->
  map (fun fo => (Frontend.expiresAt fo,
                  isExpired (Frontend.expiresAt fo) now,
                  formatTimeRemaining (Frontend.expiresAt fo) now))
    (Frontend.getUserPendingOrders (user o)
       (Ok {| Frontend.ok := true;
              Frontend.returnCode := "ok";
              Frontend.returnData := Some [Contract.encode_order o] |}))
  = [(Frontend.InvalidDate, false, NotAvailable)].
Proof.
  intros Hwf Hid Hex.
  rewrite (DecoderExtras.frontend_reading_of_layout o Hwf Hid (proj2 Hex)).
  cbn [map Frontend.expiresAt].
  assert (Hinv : Frontend.new_Date
                   ((expires_at o * 65536 + status o * 256) * 1000)
                 = Frontend.InvalidDate).
  { unfold Frontend.new_Date.
    destruct Hwf as [_ _ _ _ _ _ _ _ _ _ _ _ Hst _].
    destruct (Z.leb_spec
                (Z.abs ((expires_at o * 65536 + status o * 256) * 1000))
                8640000000000000); [lia | reflexivity]. }
  rewrite Hinv. reflexivity.
Qed.

Lemma orders_from_contract_never_show_expired_witness :
  map (fun fo => (Frontend.expiresAt fo,
                  isExpired (Frontend.expiresAt fo) 1800000000000,
                  formatTimeRemaining (Frontend.expiresAt fo) 1800000000000))
    (Frontend.getUserPendingOrders Samples.alice
       (Ok {| Frontend.ok := true;
              Frontend.returnCode := "ok";
              Frontend.returnData :=
                Some [Contract.encode_order Samples.order20] |}))
  = [(Frontend.InvalidDate, false, NotAvailable)].
Proof.
  apply (orders_from_contract_never_show_expired Samples.order20
           1800000000000).
  - exact DecoderFacts.order20_well_formed.
  - vm_compute. reflexivity.
  - vm_compute. split; [discriminate | reflexivity].
Defined.

End OrderManagerFacts.

(** * Start-up of the backend *)

Module ServerExtras.
Import Server.

(** X23.  The executor runs exactly when it is enabled and its wallet
    loads.  It is enabled only by ENABLE_LIMIT_ORDER_EXECUTOR being the
    string "true"; the wallet is read from EXECUTOR_WALLET_PEM_PATH, or
    from ./executor-wallet.pem when that variable is unset or empty.  When
    both hold, the process ends start-up with a running executor and a
    30 000 ms sweep timer; otherwise the executor is not running, no timer
    is set and nothing has been submitted. *)
Theorem boot_runs_iff_enabled_and_wallet_loads
    (env : gmap string string) (pem : string -> result string)
    (firstSweep : Executor.SweepReplies) :
  let process := boot env pem firstSweep in
  let started :=
    bool_decide (env !! "ENABLE_LIMIT_ORDER_EXECUTOR" = Some "true")
    && is_ok (pem (env_or env "EXECUTOR_WALLET_PEM_PATH"
                     "./executor-wallet.pem")) in
  Executor.isRunning (limitOrderExecutor process) = started
  /\ sweepTimer process = (if started then Some 30000 else None)
  /\ (if started then True else submitted process = []).
Proof.
  cbv zeta. unfold boot.
  cbn [LIMIT_ORDER_CONFIG enabled executorPemPath].
  destruct (bool_decide (env !! "ENABLE_LIMIT_ORDER_EXECUTOR" = Some "true"))
    eqn:Hen; cbn [andb].
  - destruct (pem (env_or env "EXECUTOR_WALLET_PEM_PATH"
                     "./executor-wallet.pem")) as [addr|e];
      cbn [Executor.initializeExecutorWallet is_ok].
    + unfold Executor.start.
      cbn [Executor.with_address Executor.executorAddress].
      pose proof (ExecutorExtras.sweep_keeps_configuration
                    (Executor.with_running
                       (Executor.with_address Executor.new (Some addr)) true)
                    firstSweep) as H.
      destruct (Executor.checkAndExecuteOrders _ firstSweep) as [st2 txs].
      cbn [fst] in H. destruct H as (_ & R & C & _).
      cbn [limitOrderExecutor sweepTimer].
      split; [exact R|]. split; [rewrite C; reflexivity|]. exact I.
    + cbn [limitOrderExecutor sweepTimer submitted]. repeat split.
  - cbn [limitOrderExecutor sweepTimer submitted]. repeat split.
Qed.

End ServerExtras.
